(** * Scrynk.io front-end: extraction flow, results guard and download helper

    A shallow embedding of the four page components of the client
    (Landing, Extract, Results, Status) together with the part of the
    browser they talk to: the router location, React component state,
    the notifier, the console, the document body and the two HTTP calls.

    Handlers are written in a small state-and-exception monad over a
    [World]; an [await] is the point where a handler is cut in two, the
    second half taking the outcome of the awaited call as an argument. *)

From Stdlib Require Import String List Bool Arith ZArith Lia.
From Stdlib Require Import Floats.SpecFloat DecimalString.
Import ListNotations.
Open Scope string_scope.
Open Scope list_scope.

Set Implicit Arguments.
Set Warnings "-register-all".

(* ================================================================== *)
(** ** JavaScript values *)
(* ================================================================== *)

Module Js.

(** A JavaScript number is an IEEE 754 binary64 value. *)
Definition number := spec_float.

(** Values that can come out of [JSON.parse] or travel as router state.
    An object is kept as its list of own properties, first binding
    first. *)
Inductive value : Type :=
| VUndefined
| VNull
| VBool (b : bool)
| VNumber (n : number)
| VString (s : string)
| VArray (items : list value)
| VObject (props : list (string * value)).

Inductive error : Type :=
| Error (message : string)
| TypeError (message : string)
| SyntaxError (message : string).

(** Outcome of evaluating an expression: a value or a thrown error. *)
Inductive completion (A : Type) : Type :=
| Normal (a : A)
| Throw (e : error).
Arguments Normal {A} a.
Arguments Throw {A} e.

(** ToBoolean. *)
Definition truthy (v : value) : bool :=
  match v with
  | VUndefined | VNull => false
  | VBool b => b
  | VNumber (S754_zero _) | VNumber S754_nan => false
  | VNumber _ => true
  | VString s => negb (String.eqb s EmptyString)
  | VArray _ | VObject _ => true
  end.

(** [!v] *)
Definition not (v : value) : bool := negb (truthy v).

(** [a && b] and [a || b] return one of their operands. *)
Definition and (a b : value) : value := if truthy a then b else a.
Definition or (a b : value) : value := if truthy a then a else b.

Fixpoint lookup (k : string) (props : list (string * value)) : option value :=
  match props with
  | [] => None
  | (k', v) :: rest => if String.eqb k k' then Some v else lookup k rest
  end.

(** The number of a natural, as the length of an array or string: the
    mantissa is the natural itself and the exponent 0. *)
Definition of_nat (n : nat) : number :=
  match n with
  | O => S754_zero false
  | S _ => S754_finite false (Pos.of_nat n) 0%Z
  end.

(** [v.k] for a property name [k] other than an array index.  Reading a
    property of [undefined] or [null] throws; arrays and strings have a
    [length] (a string counts its code units); everything else that is
    not an own property is [undefined]. *)
Definition get (v : value) (k : string) : completion value :=
  match v with
  | VUndefined =>
      Throw (TypeError ("Cannot read properties of undefined (reading '" ++ k ++ "')"))
  | VNull =>
      Throw (TypeError ("Cannot read properties of null (reading '" ++ k ++ "')"))
  | VObject props =>
      Normal (match lookup k props with Some x => x | None => VUndefined end)
  | VArray items =>
      Normal (if String.eqb k "length" then VNumber (of_nat (length items))
              else VUndefined)
  | VString s =>
      Normal (if String.eqb k "length" then VNumber (of_nat (String.length s))
              else VUndefined)
  | VBool _ | VNumber _ => Normal VUndefined
  end.

(** [v === 0] *)
Definition strict_eq_zero (v : value) : bool :=
  match v with
  | VNumber (S754_zero _) => true
  | _ => false
  end.

(** [v === s] for a string literal [s]. *)
Definition strict_eq_string (v : value) (s : string) : bool :=
  match v with
  | VString s' => String.eqb s' s
  | _ => false
  end.

(** Neither [undefined] nor [null]. *)
Definition present (v : value) : Prop := v <> VUndefined /\ v <> VNull.

End Js.

Import Js.

(* ================================================================== *)
(** ** HTTP *)
(* ================================================================== *)

Module Http.

(** A request as handed to [fetch]. *)
Record request : Type := {
  url : string;
  method : string;
  headers : list (string * string);
  payload : option value   (* the value given to [JSON.stringify] *)
}.

(** A response: its status line and what reading the body gives.  For
    the extraction call the body is read with [response.json()], which
    throws a [SyntaxError] on a body that is not JSON; for the download
    call it is read with [response.blob()]. *)
Record response (B : Type) : Type := {
  status : nat;
  body : completion B
}.

(** [response.ok] *)
Definition ok {B} (r : response B) : bool :=
  ((200 <=? status r) && (status r <=? 299))%nat.

(** What awaiting [fetch] gives: a rejection (network failure) or a
    response, whatever its status. *)
Inductive outcome (B : Type) : Type :=
| Rejected (e : error)
| Resolved (r : response B).
Arguments Rejected {B} e.
Arguments Resolved {B} r.

Definition blob := string.

End Http.

(* ================================================================== *)
(** ** The world the components run in *)
(* ================================================================== *)

(** src/unnamed/part_001, [interface ExtractFormData]. *)
Record ExtractFormData : Type := {
  email : string;
  password : string;
  postUrl : string
}.

(** The three [useState] cells of one mounted Extract component. *)
Record ExtractState : Type := {
  formData : ExtractFormData;
  isLoading : bool;
  emails : value
}.

Inductive DownloadFormat : Type := csv | txt.

Definition format_string (f : DownloadFormat) : string :=
  match f with csv => "csv" | txt => "txt" end.

(** The views of the application. *)
Inductive View : Type := LandingView | ExtractView | ResultsView | StatusView.

(** Router location: path and the transient state passed to [navigate]. *)
Record Location : Type := {
  pathname : string;
  state : value
}.

Record Toast : Type := {
  title : string;
  description : string;
  variant : string
}.

Record Element : Type := {
  tagName : string;
  attributes : list (string * string)
}.

(** A suspended [async] handler, waiting on its [fetch]. *)
Inductive Pending : Type :=
| PendingSubmit (self : nat) (captured : ExtractFormData) (req : Http.request)
| PendingDownload (from : View) (format : DownloadFormat) (req : Http.request).

(** The document as far as the download helper touches it.  An element
    is named by its position in [elements]; an object URL by its
    position in [object_urls]. *)
Record Document : Type := {
  elements : list Element;
  body_children : list nat;
  object_urls : list Http.blob;
  saves : list (string * string)      (* file name, resource saved *)
}.

Record World : Type := {
  location : Location;
  history : list Location;
  extract : option (nat * ExtractState);  (* the mounted Extract, with its identity *)
  next_instance : nat;
  pending : list Pending;
  toasts : list Toast;
  console : list (string * error);
  document : Document
}.

Definition with_location (l : Location) (h : list Location) (w : World) : World :=
  {| location := l; history := h; extract := extract w;
     next_instance := next_instance w; pending := pending w;
     toasts := toasts w; console := console w; document := document w |}.

Definition with_extract (x : option (nat * ExtractState)) (n : nat) (w : World) : World :=
  {| location := location w; history := history w; extract := x;
     next_instance := n; pending := pending w;
     toasts := toasts w; console := console w; document := document w |}.

Definition with_pending (p : list Pending) (w : World) : World :=
  {| location := location w; history := history w; extract := extract w;
     next_instance := next_instance w; pending := p;
     toasts := toasts w; console := console w; document := document w |}.

Definition with_toasts (t : list Toast) (w : World) : World :=
  {| location := location w; history := history w; extract := extract w;
     next_instance := next_instance w; pending := pending w;
     toasts := t; console := console w; document := document w |}.

Definition with_console (c : list (string * error)) (w : World) : World :=
  {| location := location w; history := history w; extract := extract w;
     next_instance := next_instance w; pending := pending w;
     toasts := toasts w; console := c; document := document w |}.

Definition with_document (d : Document) (w : World) : World :=
  {| location := location w; history := history w; extract := extract w;
     next_instance := next_instance w; pending := pending w;
     toasts := toasts w; console := console w; document := d |}.

(* ================================================================== *)
(** ** Router and component mounting *)
(* ================================================================== *)

(** Modelled from the spec: the route table of the application shell,
    which is not among the sources.  The spec's control flow and the
    [navigate] targets used by the four views give one view per path:
    ["/"] Landing, ["/extract"] Extract, ["/results"] Results,
    ["/status"] Status. *)
Definition route (path : string) : option View :=
  if String.eqb path "/" then Some LandingView
  else if String.eqb path "/extract" then Some ExtractView
  else if String.eqb path "/results" then Some ResultsView
  else if String.eqb path "/status" then Some StatusView
  else None.

(** The initial values given to [useState] in Extract. *)
Definition initial_extract : ExtractState :=
  {| formData := {| email := EmptyString; password := EmptyString; postUrl := EmptyString |};
     isLoading := false;
     emails := VArray [] |}.

(** Showing location [l]: a view that is left is unmounted and loses its
    state; Extract, when entered, is mounted afresh with a new identity;
    while it stays on screen it keeps its state. *)
Definition enter (l : Location) (w : World) : World :=
  let w1 := with_location l (history w) w in
  match route (pathname l) with
  | Some ExtractView =>
      match extract w with
      | Some _ => w1
      | None => with_extract (Some (next_instance w, initial_extract))
                             (S (next_instance w)) w1
      end
  | _ => with_extract None (next_instance w) w1
  end.

(** A push navigation: the new location is also recorded in the session
    history. *)
Definition goto (l : Location) (w : World) : World :=
  let w1 := enter l w in
  with_location (location w1) (history w1 ++ [l]) w1.

(* ================================================================== *)
(** ** The handler monad *)
(* ================================================================== *)

Definition M (A : Type) : Type := World -> World * completion A.

Definition ret {A} (a : A) : M A := fun w => (w, Normal a).

Definition bind {A B} (m : M A) (k : A -> M B) : M B :=
  fun w =>
    match m w with
    | (w1, Normal a) => k a w1
    | (w1, Throw e) => (w1, Throw e)
    end.

Notation "x <- m ;; k" := (bind m (fun x => k))
  (at level 61, m at next level, right associativity).
Notation "m ;; k" := (bind m (fun _ => k))
  (at level 61, right associativity).

Definition throw {A} (e : error) : M A := fun w => (w, Throw e).

(** An expression that may throw, evaluated inside a handler. *)
Definition lift {A} (c : completion A) : M A := fun w => (w, c).

(** [try { body } catch (error) { handler }] *)
Definition try_catch {A} (body : M A) (handler : error -> M A) : M A :=
  fun w =>
    match body w with
    | (w1, Normal a) => (w1, Normal a)
    | (w1, Throw e) => handler e w1
    end.

(** [try { body } catch (error) { handler } finally { finalizer }]: the
    finalizer runs whatever happened before it, and the completion of
    the [try]/[catch] part stands unless the finalizer itself throws. *)
Definition try_catch_finally {A}
  (body : M A) (handler : error -> M A) (finalizer : M unit) : M A :=
  fun w =>
    let (w1, r) := try_catch body handler w in
    match finalizer w1 with
    | (w2, Normal _) => (w2, r)
    | (w2, Throw e) => (w2, Throw e)
    end.

(** [await p] for a promise that settles as [o]. *)
Definition await {B} (o : Http.outcome B) : M (Http.response B) :=
  match o with
  | Http.Rejected e => throw e
  | Http.Resolved r => ret r
  end.

(** The world a handler leaves behind. *)
Definition exec {A} (m : M A) (w : World) : World := fst (m w).

(** *** Capabilities handed to the components *)

(** [navigate(to, { state })]; [navigate(to)] passes [null]. *)
Definition navigate (to : string) (st : value) : M unit :=
  fun w => (goto {| pathname := to; state := st |} w, Normal tt).

(** The function [useNavigate()] hands to a component, called from the
    body of that component while it renders.  The router arms the
    function in a layout effect, which runs only after the component's
    first render is committed; until then a call does not navigate (it
    only warns).  [armed] says whether that commit has happened.  Click
    handlers run after it, so for them the function is [navigate]. *)
Definition navigate_in_render (armed : bool) (to : string) (st : value) : M unit :=
  if armed then navigate to st else ret tt.

(** [useLocation().state] *)
Definition location_state : M value :=
  fun w => (w, Normal (state (location w))).

Definition toast (t : Toast) : M unit :=
  fun w => (with_toasts (toasts w ++ [t]) w, Normal tt).

Definition console_error (label : string) (e : error) : M unit :=
  fun w => (with_console (console w ++ [(label, e)]) w, Normal tt).

(** [fetch(...)] up to the point where the handler suspends: the
    request is on its way and the rest of the handler waits for it. *)
Definition fetch (p : Pending) : M unit :=
  fun w => (with_pending (pending w ++ [p]) w, Normal tt).

(** A state setter of the Extract instance [self].  Called after that
    instance was unmounted it changes nothing. *)
Definition set_state (self : nat) (f : ExtractState -> ExtractState) : M unit :=
  fun w =>
    match extract w with
    | Some (i, s) =>
        if Nat.eqb i self
        then (with_extract (Some (i, f s)) (next_instance w) w, Normal tt)
        else (w, Normal tt)
    | None => (w, Normal tt)
    end.

Definition setFormData (self : nat) (f : ExtractFormData -> ExtractFormData) : M unit :=
  set_state self (fun s =>
    {| formData := f (formData s); isLoading := isLoading s; emails := emails s |}).

Definition setIsLoading (self : nat) (b : bool) : M unit :=
  set_state self (fun s =>
    {| formData := formData s; isLoading := b; emails := emails s |}).

Definition setEmails (self : nat) (v : value) : M unit :=
  set_state self (fun s =>
    {| formData := formData s; isLoading := isLoading s; emails := v |}).

(** [e.preventDefault()]: the browser's own form submission (a page
    load) does not happen; nothing in the world changes. *)
Definition preventDefault : M unit := ret tt.

(** *** The document *)

Definition modify_document (f : Document -> Document) : M unit :=
  fun w => (with_document (f (document w)) w, Normal tt).

Definition string_of_nat (n : nat) : string :=
  NilEmpty.string_of_uint (Nat.to_uint n).

(** [window.URL.createObjectURL(blob)]: a fresh [blob:] URL for the
    blob, which stays registered (the helper never revokes it). *)
Definition createObjectURL (b : Http.blob) : M string :=
  fun w =>
    let d := document w in
    (with_document
       {| elements := elements d; body_children := body_children d;
          object_urls := object_urls d ++ [b]; saves := saves d |} w,
     Normal ("blob:" ++ string_of_nat (length (object_urls d)))%string).

(** [document.createElement(tag)]: a new element, attached nowhere. *)
Definition createElement (tag : string) : M nat :=
  fun w =>
    let d := document w in
    (with_document
       {| elements := elements d ++ [{| tagName := tag; attributes := [] |}];
          body_children := body_children d;
          object_urls := object_urls d; saves := saves d |} w,
     Normal (length (elements d))).

Fixpoint set_attr (name val : string) (attrs : list (string * string))
  : list (string * string) :=
  match attrs with
  | [] => [(name, val)]
  | (n, v) :: rest =>
      if String.eqb n name then (n, val) :: rest
      else (n, v) :: set_attr name val rest
  end.

Fixpoint get_attr (name : string) (attrs : list (string * string)) : option string :=
  match attrs with
  | [] => None
  | (n, v) :: rest => if String.eqb n name then Some v else get_attr name rest
  end.

Fixpoint update_nth {A} (n : nat) (f : A -> A) (l : list A) : list A :=
  match l, n with
  | [], _ => []
  | x :: rest, O => f x :: rest
  | x :: rest, S n' => x :: update_nth n' f rest
  end.

(** [el.setAttribute(name, val)] *)
Definition setAttribute (el : nat) (name val : string) : M unit :=
  modify_document (fun d =>
    {| elements :=
         update_nth el
           (fun e => {| tagName := tagName e;
                        attributes := set_attr name val (attributes e) |})
           (elements d);
       body_children := body_children d;
       object_urls := object_urls d; saves := saves d |}).

(** [el.href = url] on an anchor sets its [href] attribute. *)
Definition set_href (el : nat) (url : string) : M unit :=
  setAttribute el "href" url.

Definition without (el : nat) (children : list nat) : list nat :=
  filter (fun c => negb (Nat.eqb c el)) children.

(** [document.body.appendChild(el)]: [el] becomes the last child of the
    body (moved there if it already was a child). *)
Definition appendChild (el : nat) : M unit :=
  modify_document (fun d =>
    {| elements := elements d;
       body_children := without el (body_children d) ++ [el];
       object_urls := object_urls d; saves := saves d |}).

(** [el.remove()] *)
Definition remove (el : nat) : M unit :=
  modify_document (fun d =>
    {| elements := elements d;
       body_children := without el (body_children d);
       object_urls := object_urls d; saves := saves d |}).

(** [el.click()]: on an anchor with an [href] and a [download]
    attribute the browser saves the resource under the name the
    attribute gives.  (An anchor without [download] would be followed;
    no handler here creates one.) *)
Definition click (el : nat) : M unit :=
  modify_document (fun d =>
    match nth_error (elements d) el with
    | Some e =>
        if String.eqb (tagName e) "a" then
          match get_attr "href" (attributes e), get_attr "download" (attributes e) with
          | Some href, Some name =>
              {| elements := elements d; body_children := body_children d;
                 object_urls := object_urls d;
                 saves := saves d ++ [(name, href)] |}
          | _, _ => d
          end
        else d
    | None => d
    end).

Definition is_csv (f : DownloadFormat) : bool :=
  match f with csv => true | txt => false end.

(** The request both copies of the download helper send. *)
Definition download_request (format : DownloadFormat) : Http.request :=
  {| Http.url := ("http://127.0.0.1:8000/download/?format=" ++ format_string format)%string;
     Http.method := "GET";
     Http.headers := [];
     Http.payload := None |}.

(* ================================================================== *)
(** ** Landing  (src/Frontend/src/pages/Landing.tsx) *)
(* ================================================================== *)

Module Landing.

(** "Get Started": [onClick={() => navigate('/extract')}] *)
Definition onGetStarted : M unit := navigate "/extract" VNull.

End Landing.

(* ================================================================== *)
(** ** Status  (src/unnamed/part_000) *)
(* ================================================================== *)

Module Status.

Definition downloadFailed : Toast :=
  {| title := "Download Failed";
     description := "Could not download emails. Try again.";
     variant := "destructive" |}.

(** [handleDownload], from the call to the first [await]. *)
Definition handleDownload_start (format : DownloadFormat) : M unit :=
  fetch (PendingDownload StatusView format (download_request format)).

(** [handleDownload], from the first [await] on; [o] is how the
    request settled and what reading its body as a blob gives. *)
Definition handleDownload_resume (format : DownloadFormat)
  (o : Http.outcome Http.blob) : M unit :=
  try_catch
    (response <- await o ;;
     if negb (Http.ok response) then throw (Error "Download failed") else
     blob <- lift (Http.body response) ;;
     url <- createObjectURL blob ;;
     link <- createElement "a" ;;
     set_href link url ;;
     setAttribute link "download"
       (if is_csv format then "emails.csv" else "emails.txt") ;;
     appendChild link ;;
     click link ;;
     remove link)
    (fun error =>
       console_error "Download error:" error ;;
       toast downloadFailed).

(** "Back to Home" (twice on the page) and "Start New Extraction". *)
Definition onBackToHome : M unit := navigate "/" VNull.
Definition onStartNewExtraction : M unit := navigate "/extract" VNull.

End Status.

(* ================================================================== *)
(** ** Extract  (src/unnamed/part_001) *)
(* ================================================================== *)

Module Extract.

(** [keyof ExtractFormData] *)
Inductive Field : Type := f_email | f_password | f_postUrl.

(** [{ ...prev, [field]: value }] *)
Definition with_field (field : Field) (val : string) (prev : ExtractFormData)
  : ExtractFormData :=
  match field with
  | f_email => {| email := val; password := password prev; postUrl := postUrl prev |}
  | f_password => {| email := email prev; password := val; postUrl := postUrl prev |}
  | f_postUrl => {| email := email prev; password := password prev; postUrl := val |}
  end.

(** [handleInputChange(field)(e)], with [val] for [e.target.value]. *)
Definition handleInputChange (self : nat) (field : Field) (val : string) : M unit :=
  setFormData self (with_field field val).

Definition extract_request (formData : ExtractFormData) : Http.request :=
  {| Http.url := "https://scrnk-io.onrender.com/extract/";
     Http.method := "POST";
     Http.headers := [("Content-Type", "application/json")];
     Http.payload :=
       Some (VObject [("email", VString (email formData));
                      ("password", VString (password formData));
                      ("post_url", VString (postUrl formData))]) |}.

Definition extractionFailed : Toast :=
  {| title := "Extraction Failed";
     description :=
       "Unable to extract emails. Please check your connection and try again.";
     variant := "destructive" |}.

(** [handleSubmit], from the call to the first [await].  [self] is the
    component instance whose setters the closure holds and [formData]
    the form data of the render the closure belongs to. *)
Definition handleSubmit_start (self : nat) (formData : ExtractFormData) : M unit :=
  preventDefault ;;
  setIsLoading self true ;;
  fetch (PendingSubmit self formData (extract_request formData)).

(** [handleSubmit], from the first [await] on.  [o] is how the request
    settled and, for a response, what [response.json()] gives. *)
Definition handleSubmit_resume (self : nat) (formData : ExtractFormData)
  (o : Http.outcome value) : M unit :=
  try_catch_finally
    (response <- await o ;;
     if negb (Http.ok response) then throw (Error "Failed to extract emails") else
     result <- lift (Http.body response) ;;
     found <- lift (get result "emails") ;;
     setEmails self (Js.or found (VArray [])) ;;
     found' <- lift (get result "emails") ;;
     navigate "/results"
       (VObject [("emails", Js.or found' (VArray []));
                 ("postUrl", VString (postUrl formData));
                 ("status", VString "success")]))
    (fun error =>
       console_error "Extraction error:" error ;;
       toast extractionFailed)
    (setIsLoading self false).

Definition downloadFailed : Toast :=
  {| title := "Download Failed";
     description := "Could not download emails. Try again.";
     variant := "destructive" |}.

Definition handleDownload_start (format : DownloadFormat) : M unit :=
  fetch (PendingDownload ExtractView format (download_request format)).

Definition handleDownload_resume (format : DownloadFormat)
  (o : Http.outcome Http.blob) : M unit :=
  try_catch
    (response <- await o ;;
     if negb (Http.ok response) then throw (Error "Download failed") else
     blob <- lift (Http.body response) ;;
     url <- createObjectURL blob ;;
     link <- createElement "a" ;;
     set_href link url ;;
     setAttribute link "download"
       (if is_csv format then "emails.csv" else "emails.txt") ;;
     appendChild link ;;
     click link ;;
     remove link)
    (fun error =>
       console_error "Download error:" error ;;
       toast downloadFailed).

(** [formData.email && formData.password && formData.postUrl] *)
Definition isFormValid (formData : ExtractFormData) : value :=
  Js.and (Js.and (VString (email formData)) (VString (password formData)))
         (VString (postUrl formData)).

(** The three inputs: [disabled={isLoading}]. *)
Definition inputs_disabled (s : ExtractState) : bool := isLoading s.

(** The submit button: [disabled={!isFormValid || isLoading}]. *)
Definition submit_disabled (s : ExtractState) : bool :=
  Js.not (isFormValid (formData s)) || isLoading s.

Definition submit_label (s : ExtractState) : string :=
  if isLoading s then "Extracting... please wait" else "Extract Emails".

(** The download buttons are rendered under [emails.length > 0].  For
    the empty array that is false and for any other array true; this
    bound says "possibly shown" for every other value as well. *)
Definition download_offered (s : ExtractState) : bool :=
  match emails s with
  | VArray [] => false
  | _ => true
  end.

(** "Back to Home": [onClick={() => navigate('/')}] *)
Definition onBackToHome : M unit := navigate "/" VNull.

End Extract.

(* ================================================================== *)
(** ** Results  (src/Frontend/src/pages/Results.tsx) *)
(* ================================================================== *)

Module Results.

(** [interface ResultsState] *)
Inductive Status : Type := success | failure.

Record ResultsState : Type := {
  rs_emails : list string;
  rs_postUrl : string;
  rs_status : Status
}.

Definition status_string (s : Status) : string :=
  match s with success => "success" | failure => "failure" end.

(** A [ResultsState] as the value that travels in the location. *)
Definition to_value (r : ResultsState) : value :=
  VObject [("emails", VArray (map VString (rs_emails r)));
           ("postUrl", VString (rs_postUrl r));
           ("status", VString (status_string (rs_status r)))].

(** The body of the "Extracted Emails" card. *)
Inductive Listing : Type :=
| NoEmailsFound
| EmailRows (rows : list (nat * value)).   (* [key={index}], [{email}] *)

(** What the component puts on screen, in the order the JSX evaluates
    its expressions. *)
Record Page : Type := {
  badge_variant : string;
  badge_label : string;
  found : value;           (* [{emails.length} emails found] *)
  source_url : value;      (* [{postUrl}] *)
  heading_count : value;   (* [Extracted Emails ({emails.length})] *)
  listing : Listing
}.

Fixpoint indexed {A} (i : nat) (l : list A) : list (nat * A) :=
  match l with
  | [] => []
  | x :: rest => (i, x) :: indexed (S i) rest
  end.

(** [emails.map((email, index) => ...)]: only an array has a [map]
    method; on any other value the call throws. *)
Definition map_rows (emails : value) : completion (list (nat * value)) :=
  match emails with
  | VArray items => Normal (indexed 0 items)
  | _ => Throw (TypeError "emails.map is not a function")
  end.

(** The component function.  It returns [None] for [null].  [armed]
    is false for the render that mounts the component and true for a
    later render of the mounted component. *)
Definition Results (armed : bool) : M (option Page) :=
  st <- location_state ;;
  if Js.not st then
    navigate_in_render armed "/extract" VNull ;;
    ret None
  else
    emails <- lift (get st "emails") ;;
    postUrl <- lift (get st "postUrl") ;;
    status <- lift (get st "status") ;;
    let variant := if strict_eq_string status "success"
                   then "default" else "destructive" in
    let label := if strict_eq_string status "success"
                 then "SUCCESS" else "FAILED" in
    n <- lift (get emails "length") ;;
    n' <- lift (get emails "length") ;;
    n'' <- lift (get emails "length") ;;
    rows <- (if strict_eq_zero n'' then ret NoEmailsFound
             else r <- lift (map_rows emails) ;; ret (EmailRows r)) ;;
    ret (Some {| badge_variant := variant; badge_label := label;
                 found := n; source_url := postUrl;
                 heading_count := n'; listing := rows |}).

(** "Back to Extract" and "Try Again": [navigate('/extract')];
    "View Status": [navigate('/status')].  (The button that opens the
    source URL in a new tab leaves the application alone.) *)
Definition onBackToExtract : M unit := navigate "/extract" VNull.
Definition onTryAgain : M unit := navigate "/extract" VNull.
Definition onViewStatus : M unit := navigate "/status" VNull.

End Results.

(* ================================================================== *)
(** ** The running application *)
(* ================================================================== *)

Module App.

(** Opening the application at [path]: no router state, nothing in
    flight, and the document [d] the page starts with. *)
Definition boot (path : string) (d : Document) : World :=
  let l := {| pathname := path; state := VNull |} in
  goto l {| location := l; history := []; extract := None;
            next_instance := 0; pending := []; toasts := []; console := [];
            document := d |}.

(** What can happen next: a click or keystroke the current view offers,
    a render of Results (its first, or a later one), a request settling,
    a move in the session history. *)
Inductive Event : Type :=
| GetStarted
| ExtractBackToHome
| InputChange (field : Extract.Field) (val : string)
| Submit
| ExtractDownload (format : DownloadFormat)
| RenderResults (armed : bool)
| BackToExtract
| TryAgain
| ViewStatus
| StatusBackToHome
| StartNewExtraction
| StatusDownload (format : DownloadFormat)
| ExtractionSettles (k : nat) (o : Http.outcome value)
| DownloadSettles (k : nat) (o : Http.outcome Http.blob)
| HistoryGo (k : nat).

Definition view (w : World) : option View := route (pathname (location w)).

Definition view_eqb (a b : View) : bool :=
  match a, b with
  | LandingView, LandingView | ExtractView, ExtractView
  | ResultsView, ResultsView | StatusView, StatusView => true
  | _, _ => false
  end.

Definition showing (v : View) (w : World) : bool :=
  match view w with
  | Some v' => view_eqb v' v
  | None => false
  end.

(** Results offers its buttons only when its render produced a page. *)
Definition results_on_screen (w : World) : bool :=
  showing ResultsView w &&
  match Results.Results false w with
  | (_, Normal (Some _)) => true
  | _ => false
  end.

(** The [k]-th element of a list and the list without it. *)
Fixpoint take {A} (k : nat) (l : list A) : option (A * list A) :=
  match l, k with
  | [], _ => None
  | x :: rest, O => Some (x, rest)
  | x :: rest, S k' =>
      match take k' rest with
      | Some (y, rest') => Some (y, x :: rest')
      | None => None
      end
  end.

Definition step (w : World) (ev : Event) : option World :=
  match ev with
  | GetStarted =>
      if showing LandingView w then Some (exec Landing.onGetStarted w) else None
  | ExtractBackToHome =>
      match extract w with
      | Some _ => Some (exec Extract.onBackToHome w)
      | None => None
      end
  | InputChange field val =>
      match extract w with
      | Some (i, s) =>
          if Extract.inputs_disabled s then None
          else Some (exec (Extract.handleInputChange i field val) w)
      | None => None
      end
  | Submit =>
      match extract w with
      | Some (i, s) =>
          if Extract.submit_disabled s then None
          else Some (exec (Extract.handleSubmit_start i (formData s)) w)
      | None => None
      end
  | ExtractDownload format =>
      match extract w with
      | Some (i, s) =>
          if Extract.download_offered s
          then Some (exec (Extract.handleDownload_start format) w)
          else None
      | None => None
      end
  | RenderResults armed =>
      if showing ResultsView w then Some (exec (Results.Results armed) w) else None
  | BackToExtract =>
      if results_on_screen w then Some (exec Results.onBackToExtract w) else None
  | TryAgain =>
      if results_on_screen w then Some (exec Results.onTryAgain w) else None
  | ViewStatus =>
      if results_on_screen w then Some (exec Results.onViewStatus w) else None
  | StatusBackToHome =>
      if showing StatusView w then Some (exec Status.onBackToHome w) else None
  | StartNewExtraction =>
      if showing StatusView w then Some (exec Status.onStartNewExtraction w) else None
  | StatusDownload format =>
      if showing StatusView w
      then Some (exec (Status.handleDownload_start format) w) else None
  | ExtractionSettles k o =>
      match take k (pending w) with
      | Some (PendingSubmit self captured _, rest) =>
          Some (exec (Extract.handleSubmit_resume self captured o)
                     (with_pending rest w))
      | _ => None
      end
  | DownloadSettles k o =>
      match take k (pending w) with
      | Some (PendingDownload StatusView format _, rest) =>
          Some (exec (Status.handleDownload_resume format o) (with_pending rest w))
      | Some (PendingDownload _ format _, rest) =>
          Some (exec (Extract.handleDownload_resume format o) (with_pending rest w))
      | _ => None
      end
  | HistoryGo k =>
      match nth_error (history w) k with
      | Some l => Some (enter l w)
      | None => None
      end
  end.

Fixpoint run (w : World) (evs : list Event) : option World :=
  match evs with
  | [] => Some w
  | ev :: rest =>
      match step w ev with
      | Some w' => run w' rest
      | None => None
      end
  end.

Inductive reachable : World -> Prop :=
| reach_boot (path : string) (d : Document) : reachable (boot path d)
| reach_step (w : World) (ev : Event) (w' : World) :
    reachable w -> step w ev = Some w' -> reachable w'.

(** Extraction requests on their way. *)
Definition is_submit (p : Pending) : bool :=
  match p with
  | PendingSubmit _ _ _ => true
  | PendingDownload _ _ _ => false
  end.

Definition submitted_by (i : nat) (p : Pending) : bool :=
  match p with
  | PendingSubmit j _ _ => Nat.eqb j i
  | PendingDownload _ _ _ => false
  end.

Definition in_flight (w : World) : list Pending := filter is_submit (pending w).

Definition in_flight_of (i : nat) (w : World) : list Pending :=
  filter (submitted_by i) (pending w).

End App.

(** Every child of the body is an element that exists. *)
Definition document_wf (d : Document) : Prop :=
  forall c, In c (body_children d) -> c < length (elements d).

(** The file name the download helper asks the browser to save under. *)
Definition download_name (format : DownloadFormat) : string :=
  match format with
  | csv => "emails.csv"
  | txt => "emails.txt"
  end.

(** The shape of every router state the application hands over:
    none, or the object built on a successful extraction. *)
Definition success_state (found : value) (url : string) : value :=
  VObject [("emails", found); ("postUrl", VString url); ("status", VString "success")].

Definition nav_ok (v : value) : Prop :=
  v = VNull \/ exists found url, v = success_state found url.

Definition empty_document : Document :=
  {| elements := []; body_children := []; object_urls := []; saves := [] |}.

(** A session used in examples: the form is filled in and submitted,
    and the endpoint answers 200 with two addresses. *)
Definition sample_form : ExtractFormData :=
  {| email := "me@example.com"; password := "secret";
     postUrl := "https://example.com/post/123" |}.

Definition fill_and_submit : list App.Event :=
  [App.InputChange Extract.f_email (email sample_form);
   App.InputChange Extract.f_password (password sample_form);
   App.InputChange Extract.f_postUrl (postUrl sample_form);
   App.Submit].

Definition two_emails : Http.response value :=
  {| Http.status := 200;
     Http.body := Normal (VObject [("emails", VArray [VString "a@x.com"; VString "b@y.com"])]) |}.

(** The form filled in and submitted, the request still on its way. *)
Definition submitted_world : World :=
  exec (Extract.handleSubmit_start 0 sample_form)
    (exec (setFormData 0 (fun _ => sample_form))
       (App.boot "/extract" empty_document)).

(** The world after a list of events (the starting world when some
    event of the list is not on offer). *)
Definition after_events (w0 : World) (evs : list App.Event) : World :=
  match App.run w0 evs with
  | Some w => w
  | None => w0
  end.

(** The user submits the form, leaves for the landing page while the
    request is on its way, comes back and fills the form in again. *)
Definition left_and_returned : World :=
  after_events (App.boot "/extract" empty_document)
    (fill_and_submit
     ++ [App.ExtractBackToHome; App.GetStarted;
         App.InputChange Extract.f_email (email sample_form);
         App.InputChange Extract.f_password (password sample_form);
         App.InputChange Extract.f_postUrl (postUrl sample_form)]).

(** A whole session: submit, and the endpoint answers with two
    addresses. *)
Definition extracted_two : World :=
  after_events (App.boot "/extract" empty_document)
    (fill_and_submit ++ [App.ExtractionSettles 0 (Http.Resolved two_emails)]).

(** The world after the [catch] and [finally] blocks of [handleSubmit]. *)
Definition after_failure (self : nat) (e : error) (w : World) : World :=
  exec (setIsLoading self false)
    (exec (toast Extract.extractionFailed)
       (exec (console_error "Extraction error:" e) w)).

(** The world after the [try] block ran to its end, and [finally]. *)
Definition after_success (self : nat) (fd : ExtractFormData) (found : value)
  (w : World) : World :=
  exec (setIsLoading self false)
    (exec (navigate "/results"
             (success_state (Js.or found (VArray [])) (postUrl fd)))
       (exec (setEmails self (Js.or found (VArray []))) w)).

(** What [setIsLoading(false)] of instance [self] does to the mounted
    Extract. *)
Definition stop_loading (self : nat) (x : option (nat * ExtractState))
  : option (nat * ExtractState) :=
  match x with
  | Some (i, s) =>
      if Nat.eqb i self
      then Some (i, {| formData := formData s; isLoading := false; emails := emails s |})
      else Some (i, s)
  | None => None
  end.

(** What holds of every world the application can be in: Extract is
    mounted exactly while its route is shown; identities are handed out
    in increasing order; one instance has at most one request on its
    way, and its loading flag is set exactly while it has one. *)
Record Coherent (w : World) : Prop := {
  coh_mounted :
    match extract w with
    | Some _ => App.view w = Some ExtractView
    | None => App.view w <> Some ExtractView
    end;
  coh_fresh : forall i s, extract w = Some (i, s) -> i < next_instance w;
  coh_pending_fresh : forall i, next_instance w <= i -> App.in_flight_of i w = [];
  coh_one : forall i, length (App.in_flight_of i w) <= 1;
  coh_loading : forall i s, extract w = Some (i, s) ->
                  (isLoading s = true <-> App.in_flight_of i w <> [])
}.

(** Every location of the session, the current one included, carries
    no state or the state of a successful extraction. *)
Record Navigated (w : World) : Prop := {
  nav_history : forall l, In l (history w) -> nav_ok (state l);
  nav_current : In (location w) (history w)
}.

(* ================================================================== *)
(** ** Vocabulary for the properties of the handlers *)
(* ================================================================== *)

(** What each input of the form shows: [value={formData.email}],
    [value={formData.password}], [value={formData.postUrl}]. *)
Definition field_value (field : Extract.Field) (fd : ExtractFormData) : string :=
  match field with
  | Extract.f_email => email fd
  | Extract.f_password => password fd
  | Extract.f_postUrl => postUrl fd
  end.

(** An extraction request that gets through: a response with status
    200-299 whose body parses to something other than [null]. *)
Definition extraction_succeeds (o : Http.outcome value) : bool :=
  match o with
  | Http.Rejected _ => false
  | Http.Resolved r =>
      Http.ok r &&
      match Http.body r with
      | Normal VNull | Normal VUndefined | Throw _ => false
      | Normal _ => true
      end
  end.

(** A download that gets through: status 200-299 and a body that is
    read. *)
Definition download_succeeds (o : Http.outcome Http.blob) : bool :=
  match o with
  | Http.Rejected _ => false
  | Http.Resolved r =>
      Http.ok r &&
      match Http.body r with
      | Normal _ => true
      | Throw _ => false
      end
  end.

(** Downloads settling one after the other. *)
Fixpoint download_all (l : list (DownloadFormat * Http.outcome Http.blob))
  (w : World) : World :=
  match l with
  | [] => w
  | (format, o) :: rest =>
      download_all rest (exec (Status.handleDownload_resume format o) w)
  end.

(** What holds of the requests on their way in every world the
    application can be in. *)
Record Orderly (w : World) : Prop := {
  ord_emails : forall i s, extract w = Some (i, s) -> emails s = VArray [];
  ord_submit : forall j fd req,
      In (PendingSubmit j fd req) (pending w) ->
      req = Extract.extract_request fd
      /\ email fd <> EmptyString /\ password fd <> EmptyString
      /\ postUrl fd <> EmptyString;
  ord_captured : forall i s fd req,
      extract w = Some (i, s) ->
      In (PendingSubmit i fd req) (pending w) -> fd = formData s;
  ord_download : forall from format req,
      In (PendingDownload from format req) (pending w) ->
      from = StatusView /\ req = download_request format
}.

(** [v.k] where the read is known not to throw. *)
Definition prop (v : value) (k : string) : value :=
  match get v k with
  | Normal x => x
  | Throw _ => VUndefined
  end.

(** Whether a download in a batch got through. *)
Definition got_through (p : DownloadFormat * Http.outcome Http.blob) : bool :=
  download_succeeds (snd p).

(** A world at the Results route with the given navigation state. *)
Definition results_with (st : value) : World :=
  exec (navigate "/results" st) (App.boot "/" empty_document).

(* ================================================================== *)
(** ** Basic facts about the world and the monad *)
(* ================================================================== *)

Lemma set_state_total (self : nat) (f : ExtractState -> ExtractState) (w : World) :
  set_state self f w = (exec (set_state self f) w, Normal tt).
Proof.
  unfold exec, set_state.
  destruct (extract w) as [[i s]|]; [destruct (Nat.eqb i self)|]; reflexivity.
Qed.

Lemma setIsLoading_total (self : nat) (b : bool) (w : World) :
  setIsLoading self b w = (exec (setIsLoading self b) w, Normal tt).
Proof. apply set_state_total. Qed.

Lemma setEmails_total (self : nat) (v : value) (w : World) :
  setEmails self v w = (exec (setEmails self v) w, Normal tt).
Proof. apply set_state_total. Qed.

Lemma navigate_total (to : string) (st : value) (w : World) :
  navigate to st w = (exec (navigate to st) w, Normal tt).
Proof. reflexivity. Qed.

Lemma resume_rejected self fd e w :
  Extract.handleSubmit_resume self fd (Http.Rejected e) w
  = (after_failure self e w, Normal tt).
Proof.
  unfold Extract.handleSubmit_resume, try_catch_finally, try_catch, bind, await, throw.
  cbn. rewrite setIsLoading_total. reflexivity.
Qed.

Lemma resume_not_ok self fd (r : Http.response value) w :
  Http.ok r = false ->
  Extract.handleSubmit_resume self fd (Http.Resolved r) w
  = (after_failure self (Error "Failed to extract emails") w, Normal tt).
Proof.
  intros Hok.
  unfold Extract.handleSubmit_resume, try_catch_finally, try_catch, bind, await, throw, ret.
  rewrite Hok. cbn. rewrite setIsLoading_total. reflexivity.
Qed.

Lemma resume_bad_body self fd (r : Http.response value) e w :
  Http.ok r = true -> Http.body r = Throw e ->
  Extract.handleSubmit_resume self fd (Http.Resolved r) w
  = (after_failure self e w, Normal tt).
Proof.
  intros Hok Hb.
  unfold Extract.handleSubmit_resume, try_catch_finally, try_catch, bind, await,
    throw, ret, lift.
  rewrite Hok, Hb. cbn. rewrite setIsLoading_total. reflexivity.
Qed.

Lemma resume_no_property self fd (r : Http.response value) result e w :
  Http.ok r = true -> Http.body r = Normal result -> get result "emails" = Throw e ->
  Extract.handleSubmit_resume self fd (Http.Resolved r) w
  = (after_failure self e w, Normal tt).
Proof.
  intros Hok Hb Hg.
  unfold Extract.handleSubmit_resume, try_catch_finally, try_catch, bind, await,
    throw, ret, lift.
  rewrite Hok, Hb, Hg. cbn. rewrite setIsLoading_total. reflexivity.
Qed.

Lemma resume_parsed self fd (r : Http.response value) result found w :
  Http.ok r = true -> Http.body r = Normal result ->
  get result "emails" = Normal found ->
  Extract.handleSubmit_resume self fd (Http.Resolved r) w
  = (after_success self fd found w, Normal tt).
Proof.
  intros Hok Hb Hg.
  unfold Extract.handleSubmit_resume, try_catch_finally, try_catch, bind, await,
    throw, ret, lift.
  rewrite Hok, Hb, Hg. cbn -[setEmails setIsLoading navigate].
  rewrite setEmails_total. cbn -[setEmails setIsLoading navigate exec].
  rewrite navigate_total. rewrite setIsLoading_total. reflexivity.
Qed.

(** Every completion of [handleSubmit] is one of the two. *)
Lemma resume_cases self fd o w :
  (exists e, Extract.handleSubmit_resume self fd o w = (after_failure self e w, Normal tt))
  \/ (exists found,
        Extract.handleSubmit_resume self fd o w = (after_success self fd found w, Normal tt)).
Proof.
  destruct o as [e | r].
  - left. exists e. apply resume_rejected.
  - destruct (Http.ok r) eqn:Hok.
    + destruct (Http.body r) as [result | e] eqn:Hb.
      * destruct (get result "emails") as [found | e] eqn:Hg.
        -- right. exists found. eapply resume_parsed; eassumption.
        -- left. exists e. eapply resume_no_property; eassumption.
      * left. exists e. eapply resume_bad_body; eassumption.
    + left. eexists. apply resume_not_ok; assumption.
Qed.

(* ================================================================== *)
(** ** The Extract form *)
(* ================================================================== *)

Lemma truthy_string (s : string) : Js.truthy (VString s) = true <-> s <> EmptyString.
Proof.
  cbn. destruct (String.eqb_spec s EmptyString); cbn; split; congruence.
Qed.

Lemma isFormValid_truthy (fd : ExtractFormData) :
  Js.truthy (Extract.isFormValid fd) = true
  <-> email fd <> EmptyString /\ password fd <> EmptyString /\ postUrl fd <> EmptyString.
Proof.
  unfold Extract.isFormValid, Js.and.
  destruct (String.eqb_spec (email fd) EmptyString) as [He | He];
    destruct (String.eqb_spec (password fd) EmptyString) as [Hp | Hp];
    destruct (String.eqb_spec (postUrl fd) EmptyString) as [Hu | Hu];
    cbn; rewrite ?He, ?Hp, ?Hu; cbn;
    repeat match goal with
           | H : ?x <> EmptyString |- context [String.eqb ?x EmptyString] =>
               rewrite (proj2 (String.eqb_neq x EmptyString) H); cbn
           end;
    split; intros; try congruence; try tauto; intuition congruence.
Qed.

(** C5.  The submit control is enabled exactly when the three fields
    are non-empty strings and no request is loading; as soon as one field
    is the empty string the control is disabled. *)
Theorem submit_enabled_iff_fields_filled (s : ExtractState) :
  (Extract.submit_disabled s = false
   <-> email (formData s) <> EmptyString /\ password (formData s) <> EmptyString
       /\ postUrl (formData s) <> EmptyString /\ isLoading s = false)
  /\ (email (formData s) = EmptyString \/ password (formData s) = EmptyString
      \/ postUrl (formData s) = EmptyString -> Extract.submit_disabled s = true).
Proof.
  unfold Extract.submit_disabled, Js.not.
  pose proof (isFormValid_truthy (formData s)) as Hv.
  destruct (Js.truthy (Extract.isFormValid (formData s))); cbn.
  - destruct Hv as [Hv _]. specialize (Hv eq_refl).
    split.
    + split; [intros Hl; tauto | intros (_ & _ & _ & Hl); exact Hl].
    + intros [H | [H | H]]; tauto.
  - split.
    + split; [discriminate |].
      intros (He & Hp & Hu & _).
      destruct Hv as [_ Hv]. symmetry. apply Hv. auto.
    + reflexivity.
Qed.

Lemma submit_enabled_iff_fields_filled_witness :
  Extract.submit_disabled
    {| formData := {| email := "me@example.com"; password := "secret";
                      postUrl := "https://example.com/post/123" |};
       isLoading := false; emails := VArray [] |} = false
  /\ Extract.submit_disabled
       {| formData := {| email := "me@example.com"; password := EmptyString;
                         postUrl := "https://example.com/post/123" |};
          isLoading := false; emails := VArray [] |} = true.
Proof.
  split.
  - apply (proj1 (submit_enabled_iff_fields_filled _)). cbn.
    repeat split; try discriminate.
  - apply (proj2 (submit_enabled_iff_fields_filled _)). cbn.
    right; left; reflexivity.
Defined.

(* ================================================================== *)
(** ** The Results guard *)
(* ================================================================== *)

Lemma truthy_present (v : value) : Js.truthy v = true -> Js.present v.
Proof. destruct v; cbn; intros H; split; congruence. Qed.

(** Past the guard nothing navigates: the world is left as it was. *)
Lemma Results_past_guard (armed : bool) (w : World) :
  Js.truthy (state (location w)) = true ->
  exec (Results.Results armed) w = w.
Proof.
  intros Ht.
  unfold exec, Results.Results, bind, location_state, Js.not, lift, ret.
  rewrite Ht. cbn.
  destruct (get (state (location w)) "emails") as [em|]; [|reflexivity].
  destruct (get (state (location w)) "postUrl"); [|reflexivity].
  destruct (get (state (location w)) "status"); [|reflexivity].
  destruct (get em "length") as [n|]; [|reflexivity].
  destruct (strict_eq_zero n); [reflexivity|].
  destruct (Results.map_rows em); reflexivity.
Qed.

Lemma Results_redirects (w : World) :
  Js.truthy (state (location w)) = false ->
  Results.Results true w
  = (goto {| pathname := "/extract"; state := VNull |} w, Normal None).
Proof.
  intros Ht.
  unfold Results.Results, bind, location_state, Js.not, ret, navigate_in_render,
    navigate.
  rewrite Ht. reflexivity.
Qed.

Lemma Results_first_render_inert (w : World) :
  Js.truthy (state (location w)) = false ->
  Results.Results false w = (w, Normal None).
Proof.
  intros Ht.
  unfold Results.Results, bind, location_state, Js.not, ret, navigate_in_render.
  rewrite Ht. reflexivity.
Qed.

Lemma location_goto (l : Location) (w : World) : location (goto l w) = l.
Proof.
  unfold goto, enter.
  destruct (route (pathname l)) as [[]|]; try reflexivity.
  destruct (extract w); reflexivity.
Qed.

(** C2.  The code falls short of the claim.  With no navigation state
    (null or undefined) the guard does return null, but its
    [navigate('/extract')] is called from the render body, where the
    router ignores it on the render that mounts the view: Results
    opened without state renders nothing and stays where it is, no
    redirect to the Extract route takes place.  (Only a later render of
    the already mounted view would navigate.) *)
Theorem Results_without_state_stays (w : World) :
  state (location w) = VNull \/ state (location w) = VUndefined ->
  Results.Results false w = (w, Normal None)
  /\ location (exec (Results.Results false) w) = location w
  /\ extract (exec (Results.Results false) w) = extract w
  /\ (exists w',
        Results.Results true w = (w', Normal None)
        /\ pathname (location w') = "/extract").
Proof.
  intros Habs.
  assert (Ht : Js.truthy (state (location w)) = false)
    by (destruct Habs as [-> | ->]; reflexivity).
  unfold exec. rewrite (Results_first_render_inert w Ht). cbn [fst].
  repeat split.
  eexists. split; [apply Results_redirects; exact Ht|].
  rewrite location_goto. reflexivity.
Qed.

Lemma Results_without_state_stays_witness :
  Results.Results false (App.boot "/results" empty_document)
  = (App.boot "/results" empty_document, Normal None)
  /\ pathname (location (App.boot "/results" empty_document)) = "/results"
  /\ App.step (App.boot "/results" empty_document) (App.RenderResults false)
     = Some (App.boot "/results" empty_document).
Proof.
  destruct (@Results_without_state_stays (App.boot "/results" empty_document)
              (or_introl eq_refl)) as (H & _).
  split; [exact H|]. split; [reflexivity|].
  cbn [App.step]. unfold exec. rewrite H. reflexivity.
Defined.

(** C9.  The guard looks at the navigation state as a whole: every
    state that is there (any object, whatever fields it has) gets past
    it without a redirect, and the render then reads [emails.length]
    unchecked -- a missing [emails] field makes that read throw, while
    an [emails] array is rendered even when [postUrl] and [status] are
    missing. *)
Theorem Results_guard_checks_presence_only (armed : bool) (w : World)
  (emails : value) :
  Js.truthy (state (location w)) = true ->
  get (state (location w)) "emails" = Normal emails ->
  exec (Results.Results armed) w = w
  /\ (forall e, get emails "length" = Throw e -> Results.Results armed w = (w, Throw e))
  /\ (emails = VUndefined ->
      Results.Results armed w
      = (w, Throw (TypeError "Cannot read properties of undefined (reading 'length')")))
  /\ (forall items, emails = VArray items ->
      exists page,
        Results.Results armed w = (w, Normal (Some page))
        /\ Results.found page = VNumber (Js.of_nat (length items))).
Proof.
  intros Ht Hg.
  assert (Hthrow : forall e, get emails "length" = Throw e ->
                             Results.Results armed w = (w, Throw e)).
  { intros e He.
    unfold Results.Results, bind, location_state, Js.not, lift, ret.
    rewrite Ht, Hg. cbn.
    destruct (get (state (location w)) "postUrl") as [u|e'] eqn:Hu.
    - destruct (get (state (location w)) "status") as [s|e''] eqn:Hs.
      + rewrite He. reflexivity.
      + destruct (state (location w)); cbn in *; discriminate.
    - destruct (state (location w)); cbn in *; discriminate. }
  split; [apply Results_past_guard; exact Ht|].
  split; [exact Hthrow|].
  split.
  - intros ->. apply Hthrow. reflexivity.
  - intros items ->.
    unfold Results.Results, bind, location_state, Js.not, lift, ret.
    rewrite Ht, Hg. cbn.
    destruct (get (state (location w)) "postUrl") as [u|e'] eqn:Hu;
      [|destruct (state (location w)); cbn in *; discriminate].
    destruct (get (state (location w)) "status") as [s|e''] eqn:Hs;
      [|destruct (state (location w)); cbn in *; discriminate].
    destruct items; cbn; eexists; split; reflexivity.
Qed.

Lemma Results_guard_checks_presence_only_witness :
  let w := exec (navigate "/results" (VObject [])) (App.boot "/" empty_document) in
  exec (Results.Results false) w = w
  /\ Results.Results false w
     = (w, Throw (TypeError "Cannot read properties of undefined (reading 'length')")).
Proof.
  intros w.
  destruct (@Results_guard_checks_presence_only false w VUndefined eq_refl eq_refl)
    as (H1 & _ & H3 & _).
  split; [exact H1 | apply H3; reflexivity].
Defined.

(* ================================================================== *)
(** ** Completions of [handleSubmit] *)
(* ================================================================== *)

Lemma after_failure_spec self e w :
  location (after_failure self e w) = location w
  /\ history (after_failure self e w) = history w
  /\ pending (after_failure self e w) = pending w
  /\ next_instance (after_failure self e w) = next_instance w
  /\ document (after_failure self e w) = document w
  /\ toasts (after_failure self e w) = toasts w ++ [Extract.extractionFailed]
  /\ console (after_failure self e w) = console w ++ [("Extraction error:", e)]
  /\ extract (after_failure self e w) = stop_loading self (extract w).
Proof.
  unfold after_failure, exec, setIsLoading, set_state, toast, console_error,
    stop_loading.
  cbn. destruct (extract w) as [[i s]|] eqn:Hx; [destruct (Nat.eqb i self)|];
    cbn; rewrite ?Hx; repeat split; reflexivity.
Qed.

Lemma after_success_spec self fd found w :
  location (after_success self fd found w)
  = {| pathname := "/results";
       state := success_state (Js.or found (VArray [])) (postUrl fd) |}
  /\ history (after_success self fd found w)
     = history w ++ [{| pathname := "/results";
                        state := success_state (Js.or found (VArray [])) (postUrl fd) |}]
  /\ pending (after_success self fd found w) = pending w
  /\ next_instance (after_success self fd found w) = next_instance w
  /\ document (after_success self fd found w) = document w
  /\ toasts (after_success self fd found w) = toasts w
  /\ console (after_success self fd found w) = console w
  /\ extract (after_success self fd found w) = None.
Proof.
  unfold after_success, exec, setIsLoading, setEmails, set_state, navigate,
    goto, enter.
  cbn. destruct (extract w) as [[i s]|]; [destruct (Nat.eqb i self)|];
    cbn; repeat split; reflexivity.
Qed.

(** C1.  When the extraction endpoint answers 200 (any 2xx) with a JSON
    object holding an [emails] array, [handleSubmit] completes normally
    and has navigated to the Results view, with navigation state whose
    [status] is ['success'], whose [emails] is that very array (same
    items, same order) and whose [postUrl] is the URL of the submitted
    form. *)
Theorem handleSubmit_success_navigates self fd (r : Http.response value)
  props items w :
  Http.ok r = true ->
  Http.body r = Normal (VObject props) ->
  Js.lookup "emails" props = Some (VArray items) ->
  exists w',
    Extract.handleSubmit_resume self fd (Http.Resolved r) w = (w', Normal tt)
    /\ location w'
       = {| pathname := "/results";
            state := VObject [("emails", VArray items);
                              ("postUrl", VString (postUrl fd));
                              ("status", VString "success")] |}
    /\ App.view w' = Some ResultsView.
Proof.
  intros Hok Hb Hl.
  exists (after_success self fd (VArray items) w).
  split.
  - eapply resume_parsed; [exact Hok | exact Hb |]. cbn. rewrite Hl. reflexivity.
  - destruct (after_success_spec self fd (VArray items) w) as (Hloc & _).
    unfold App.view. rewrite Hloc. split; reflexivity.
Qed.

Lemma handleSubmit_success_navigates_witness :
  exists w',
    Extract.handleSubmit_resume 0 sample_form (Http.Resolved two_emails)
      (App.boot "/extract" empty_document) = (w', Normal tt)
    /\ location w'
       = {| pathname := "/results";
            state := VObject [("emails", VArray [VString "a@x.com"; VString "b@y.com"]);
                              ("postUrl", VString "https://example.com/post/123");
                              ("status", VString "success")] |}
    /\ App.view w' = Some ResultsView.
Proof.
  apply (@handleSubmit_success_navigates 0 sample_form two_emails
           [("emails", VArray [VString "a@x.com"; VString "b@y.com"])]
           [VString "a@x.com"; VString "b@y.com"]);
    reflexivity.
Defined.

(** C7.  When a 2xx response carries a JSON object without an [emails]
    key, the [emails] handed to the Results view is the empty array. *)
Theorem handleSubmit_missing_emails_is_empty self fd (r : Http.response value)
  props w :
  Http.ok r = true ->
  Http.body r = Normal (VObject props) ->
  Js.lookup "emails" props = None ->
  exists w',
    Extract.handleSubmit_resume self fd (Http.Resolved r) w = (w', Normal tt)
    /\ pathname (location w') = "/results"
    /\ get (state (location w')) "emails" = Normal (VArray []).
Proof.
  intros Hok Hb Hl.
  exists (after_success self fd VUndefined w).
  split.
  - eapply resume_parsed; [exact Hok | exact Hb |]. cbn. rewrite Hl. reflexivity.
  - destruct (after_success_spec self fd VUndefined w) as (Hloc & _).
    rewrite Hloc. split; reflexivity.
Qed.

Lemma handleSubmit_missing_emails_is_empty_witness :
  exists w',
    Extract.handleSubmit_resume 0 sample_form
      (Http.Resolved {| Http.status := 200;
                        Http.body := Normal (VObject [("count", VNull)]) |})
      (App.boot "/extract" empty_document) = (w', Normal tt)
    /\ pathname (location w') = "/results"
    /\ get (state (location w')) "emails" = Normal (VArray []).
Proof.
  apply (@handleSubmit_missing_emails_is_empty 0 sample_form
           {| Http.status := 200; Http.body := Normal (VObject [("count", VNull)]) |}
           [("count", VNull)]);
    reflexivity.
Defined.

(** C3.  When the extraction endpoint answers with a status outside
    200-299, [handleSubmit] completes without navigating (location and
    history are as before and Extract stays mounted), shows exactly one
    error notification, and leaves the three form fields as they were. *)
Theorem handleSubmit_failure_stays self fd (r : Http.response value) w :
  Http.ok r = false ->
  exists w',
    Extract.handleSubmit_resume self fd (Http.Resolved r) w = (w', Normal tt)
    /\ location w' = location w
    /\ history w' = history w
    /\ toasts w' = toasts w ++ [Extract.extractionFailed]
    /\ (forall i s, extract w = Some (i, s) ->
          exists s', extract w' = Some (i, s') /\ formData s' = formData s).
Proof.
  intros Hok.
  exists (after_failure self (Error "Failed to extract emails") w).
  split; [apply resume_not_ok; exact Hok|].
  destruct (after_failure_spec self (Error "Failed to extract emails") w)
    as (Hloc & Hh & _ & _ & _ & Ht & _ & Hx).
  repeat split; try assumption.
  intros i s Hm. rewrite Hx, Hm. unfold stop_loading.
  destruct (Nat.eqb i self); eexists; split; reflexivity.
Qed.

Lemma handleSubmit_failure_stays_witness :
  exists w',
    Extract.handleSubmit_resume 0 sample_form
      (Http.Resolved {| Http.status := 500; Http.body := Throw (SyntaxError "Unexpected token") |})
      submitted_world = (w', Normal tt)
    /\ location w' = location submitted_world
    /\ history w' = history submitted_world
    /\ toasts w' = toasts submitted_world ++ [Extract.extractionFailed]
    /\ (forall i s, extract submitted_world = Some (i, s) ->
          exists s', extract w' = Some (i, s') /\ formData s' = formData s).
Proof.
  apply (@handleSubmit_failure_stays 0 sample_form
           {| Http.status := 500; Http.body := Throw (SyntaxError "Unexpected token") |}
           submitted_world).
  reflexivity.
Defined.

(* ================================================================== *)
(** ** The download helper *)
(* ================================================================== *)

Lemma update_nth_last {A} (f : A -> A) (l : list A) (x : A) :
  update_nth (length l) f (l ++ [x]) = l ++ [f x].
Proof. induction l as [|y l IH]; cbn; [reflexivity | rewrite IH; reflexivity]. Qed.

Lemma nth_error_last {A} (l : list A) (x : A) :
  nth_error (l ++ [x]) (length l) = Some x.
Proof. induction l as [|y l IH]; cbn; [reflexivity | exact IH]. Qed.

Lemma without_fresh (n : nat) (l : list nat) :
  (forall c, In c l -> c < n) -> without n l = l.
Proof.
  unfold without. induction l as [|c l IH]; intros H; cbn; [reflexivity|].
  assert (Hc : c < n) by (apply H; left; reflexivity).
  destruct (Nat.eqb_spec c n) as [-> | _]; [lia|]. cbn.
  rewrite IH; [reflexivity|]. intros c' Hin. apply H. right. exact Hin.
Qed.

Lemma without_app_self (n : nat) (l : list nat) :
  without n (l ++ [n]) = without n l.
Proof.
  unfold without. rewrite filter_app. cbn. rewrite Nat.eqb_refl. cbn.
  apply app_nil_r.
Qed.

Lemma without_idem (n : nat) (l : list nat) :
  without n (without n l) = without n l.
Proof.
  unfold without. induction l as [|c l IH]; cbn; [reflexivity|].
  destruct (Nat.eqb c n) eqn:E; cbn; [exact IH|]. rewrite E. cbn. rewrite IH.
  reflexivity.
Qed.

Lemma download_name_is_csv (format : DownloadFormat) :
  (if is_csv format then "emails.csv" else "emails.txt") = download_name format.
Proof. destruct format; reflexivity. Qed.

Lemma Status_handleDownload_ok format (r : Http.response Http.blob) b w :
  Http.ok r = true -> Http.body r = Normal b ->
  document_wf (document w) ->
  let d := document w in
  let url := ("blob:" ++ string_of_nat (length (object_urls d)))%string in
  Status.handleDownload_resume format (Http.Resolved r) w
  = (with_document
       {| elements := elements d
            ++ [{| tagName := "a";
                   attributes := [("href", url); ("download", download_name format)] |}];
          body_children := body_children d;
          object_urls := object_urls d ++ [b];
          saves := saves d ++ [(download_name format, url)] |} w,
     Normal tt).
Proof.
  intros Hok Hb Hwf d url.
  unfold Status.handleDownload_resume, try_catch, bind, await, throw, ret, lift.
  rewrite Hok, Hb.
  unfold createObjectURL, createElement, set_href, setAttribute, appendChild,
    click, remove, modify_document.
  cbn -[update_nth nth_error without String.append string_of_nat set_attr get_attr String.eqb].
  rewrite !update_nth_last.
  cbn -[update_nth nth_error without String.append string_of_nat set_attr get_attr String.eqb].
  rewrite nth_error_last.
  cbn -[without String.append string_of_nat].
  rewrite without_app_self, without_idem, without_fresh by exact Hwf.
  rewrite download_name_is_csv. reflexivity.
Qed.

(** The two copies of the helper are the same function. *)
Lemma handleDownload_resume_same format o :
  Extract.handleDownload_resume format o = Status.handleDownload_resume format o.
Proof. reflexivity. Qed.

(** C8.  When the download endpoint answers 200 (any 2xx) and the body
    is read, either copy of the helper makes the browser save the blob
    under ["emails.csv"] for format csv and ["emails.txt"] for format
    txt; the anchor it creates is not a child of the body afterwards,
    the body's children and every element that existed are as before,
    and no notification is shown. *)
Theorem handleDownload_saves_named_file format (r : Http.response Http.blob) b w :
  Http.ok r = true -> Http.body r = Normal b ->
  document_wf (document w) ->
  let url := ("blob:" ++ string_of_nat (length (object_urls (document w))))%string in
  let name := match format with csv => "emails.csv" | txt => "emails.txt" end in
  let anchor := length (elements (document w)) in
  exists w',
    Status.handleDownload_resume format (Http.Resolved r) w = (w', Normal tt)
    /\ Extract.handleDownload_resume format (Http.Resolved r) w = (w', Normal tt)
    /\ saves (document w') = saves (document w) ++ [(name, url)]
    /\ nth_error (elements (document w')) anchor
       = Some {| tagName := "a"; attributes := [("href", url); ("download", name)] |}
    /\ ~ In anchor (body_children (document w'))
    /\ body_children (document w') = body_children (document w)
    /\ firstn anchor (elements (document w')) = elements (document w)
    /\ toasts w' = toasts w
    /\ location w' = location w.
Proof.
  intros Hok Hb Hwf url name anchor.
  eexists. split; [apply Status_handleDownload_ok; eassumption|].
  split; [rewrite handleDownload_resume_same; apply Status_handleDownload_ok; eassumption|].
  cbn -[String.append string_of_nat firstn nth_error].
  split; [reflexivity|].
  split; [apply nth_error_last|].
  split; [intros Hin; apply Hwf in Hin; unfold anchor in Hin; lia|].
  split; [reflexivity|].
  split; [|split; reflexivity].
  unfold anchor. rewrite firstn_app, firstn_all, Nat.sub_diag. cbn.
  apply app_nil_r.
Qed.

Lemma handleDownload_saves_named_file_witness :
  (exists w',
     Status.handleDownload_resume csv
       (Http.Resolved {| Http.status := 200; Http.body := Normal "a@x.com,b@y.com" |})
       (App.boot "/status" empty_document) = (w', Normal tt)
     /\ saves (document w') = [("emails.csv", "blob:0")]
     /\ body_children (document w') = [])
  /\ (exists w',
        Extract.handleDownload_resume txt
          (Http.Resolved {| Http.status := 200; Http.body := Normal "a@x.com" |})
          (App.boot "/extract" empty_document) = (w', Normal tt)
        /\ saves (document w') = [("emails.txt", "blob:0")]
        /\ body_children (document w') = []).
Proof.
  split.
  - destruct (@handleDownload_saves_named_file csv
                {| Http.status := 200; Http.body := Normal "a@x.com,b@y.com" |}
                "a@x.com,b@y.com" (App.boot "/status" empty_document)
                eq_refl eq_refl)
      as (w' & H1 & _ & H3 & _ & _ & H6 & _).
    + intros c Hc. destruct Hc.
    + exists w'. repeat split; assumption.
  - destruct (@handleDownload_saves_named_file txt
                {| Http.status := 200; Http.body := Normal "a@x.com" |}
                "a@x.com" (App.boot "/extract" empty_document)
                eq_refl eq_refl)
      as (w' & _ & H2 & H3 & _ & _ & H6 & _).
    + intros c Hc. destruct Hc.
    + exists w'. repeat split; assumption.
Defined.

(* ================================================================== *)
(** ** Invariants of the running application *)
(* ================================================================== *)

Lemma take_split {A} (k : nat) (l : list A) (x : A) (rest : list A) :
  App.take k l = Some (x, rest) ->
  exists l1 l2, l = l1 ++ x :: l2 /\ rest = l1 ++ l2.
Proof.
  revert k x rest. induction l as [|y l IH]; intros k x rest H.
  - destruct k; discriminate.
  - destruct k as [|k]; cbn in H.
    + injection H as <- <-. exists [], l. split; reflexivity.
    + destruct (App.take k l) as [[z rest']|] eqn:E; [|discriminate].
      injection H as <- <-.
      destruct (IH _ _ _ E) as (l1 & l2 & -> & ->).
      exists (y :: l1), l2. split; reflexivity.
Qed.

Lemma extract_enter (l : Location) (w : World) :
  extract (enter l w)
  = match route (pathname l) with
    | Some ExtractView =>
        match extract w with
        | Some x => Some x
        | None => Some (next_instance w, initial_extract)
        end
    | _ => None
    end.
Proof.
  unfold enter. destruct (route (pathname l)) as [[]|]; try reflexivity.
  destruct (extract w) eqn:E; cbn; rewrite ?E; reflexivity.
Qed.

Lemma next_instance_enter (l : Location) (w : World) :
  next_instance (enter l w)
  = match route (pathname l), extract w with
    | Some ExtractView, None => S (next_instance w)
    | _, _ => next_instance w
    end.
Proof.
  unfold enter. destruct (route (pathname l)) as [[]|]; try reflexivity;
    destruct (extract w); reflexivity.
Qed.

Lemma unchanged_by_enter (l : Location) (w : World) :
  location (enter l w) = l
  /\ history (enter l w) = history w
  /\ pending (enter l w) = pending w
  /\ toasts (enter l w) = toasts w
  /\ console (enter l w) = console w
  /\ document (enter l w) = document w.
Proof.
  unfold enter. destruct (route (pathname l)) as [[]|];
    try (repeat split; reflexivity).
  destruct (extract w); repeat split; reflexivity.
Qed.

Lemma goto_as_enter (l : Location) (w : World) :
  location (goto l w) = l
  /\ history (goto l w) = history w ++ [l]
  /\ extract (goto l w) = extract (enter l w)
  /\ next_instance (goto l w) = next_instance (enter l w)
  /\ pending (goto l w) = pending w.
Proof.
  destruct (unchanged_by_enter l w) as (Hl & Hh & Hp & _).
  unfold goto. cbn. rewrite Hl, Hh, Hp. repeat split; reflexivity.
Qed.

(** [Coherent] looks at the location, the mounted instance, the
    identity counter and the extraction requests on their way only. *)
Lemma Coherent_frame (w w' : World) :
  pathname (location w') = pathname (location w) ->
  extract w' = extract w ->
  next_instance w' = next_instance w ->
  (forall i, App.in_flight_of i w' = App.in_flight_of i w) ->
  Coherent w -> Coherent w'.
Proof.
  intros Hl Hx Hn Hp [C1 C2 C3 C4 C5].
  constructor.
  - unfold App.view in *. rewrite Hx, Hl. exact C1.
  - intros i s H. rewrite Hx in H. rewrite Hn. eauto.
  - intros i H. rewrite Hn in H. rewrite Hp. auto.
  - intros i. rewrite Hp. auto.
  - intros i s H. rewrite Hx in H. rewrite Hp. auto.
Qed.

Lemma Coherent_enter (l : Location) (w : World) :
  Coherent w -> Coherent (enter l w).
Proof.
  intros [C1 C2 C3 C4 C5].
  destruct (unchanged_by_enter l w) as (Hl & _ & Hp & _).
  pose proof (extract_enter l w) as Hx.
  pose proof (next_instance_enter l w) as Hn.
  assert (Hin : forall i, App.in_flight_of i (enter l w) = App.in_flight_of i w)
    by (intros i; unfold App.in_flight_of; rewrite Hp; reflexivity).
  constructor.
  - unfold App.view. rewrite Hx, Hl.
    destruct (route (pathname l)) as [[]|]; try discriminate.
    destruct (extract w); reflexivity.
  - intros i s H. rewrite Hx in H. rewrite Hn.
    destruct (route (pathname l)) as [[]|]; try discriminate.
    destruct (extract w) as [[j t]|] eqn:E.
    + injection H as -> ->. eauto.
    + injection H as <- _. lia.
  - intros i H. rewrite Hin. apply C3. rewrite Hn in H.
    destruct (route (pathname l)) as [[]|]; try lia.
    destruct (extract w); lia.
  - intros i. rewrite Hin. auto.
  - intros i s H. rewrite Hx in H. rewrite Hin.
    destruct (route (pathname l)) as [[]|]; try discriminate.
    destruct (extract w) as [[j t]|] eqn:E.
    + injection H as -> ->. auto.
    + injection H as <- <-. rewrite (C3 (next_instance w)) by lia.
      cbn. split; [discriminate | congruence].
Qed.

Lemma Coherent_goto (l : Location) (w : World) :
  Coherent w -> Coherent (goto l w).
Proof.
  intros C. apply Coherent_enter with (l := l) in C.
  destruct (goto_as_enter l w) as (Hl & _ & Hx & Hn & Hp).
  destruct (unchanged_by_enter l w) as (Hl' & _ & Hp' & _).
  eapply Coherent_frame; [| exact Hx | exact Hn | | exact C].
  - rewrite Hl, Hl'. reflexivity.
  - intros i. unfold App.in_flight_of. rewrite Hp, Hp'. reflexivity.
Qed.

Lemma Navigated_goto (l : Location) (w : World) :
  nav_ok (state l) -> Navigated w -> Navigated (goto l w).
Proof.
  intros Hok [N1 N2].
  destruct (goto_as_enter l w) as (Hl & Hh & _).
  constructor.
  - intros l' Hin. rewrite Hh in Hin. apply in_app_or in Hin.
    destruct Hin as [Hin | [<- | []]]; auto.
  - rewrite Hl, Hh. apply in_or_app. right. left. reflexivity.
Qed.

Lemma Navigated_enter (l : Location) (w : World) :
  In l (history w) -> Navigated w -> Navigated (enter l w).
Proof.
  intros Hin [N1 N2].
  destruct (unchanged_by_enter l w) as (Hl & Hh & _).
  constructor.
  - intros l' Hin'. rewrite Hh in Hin'. auto.
  - rewrite Hl, Hh. exact Hin.
Qed.

Lemma Navigated_frame (w w' : World) :
  location w' = location w -> history w' = history w ->
  Navigated w -> Navigated w'.
Proof.
  intros Hl Hh [N1 N2]. constructor.
  - intros l Hin. rewrite Hh in Hin. auto.
  - rewrite Hl, Hh. exact N2.
Qed.

Lemma boot_as_goto (path : string) (d : Document) :
  App.boot path d
  = goto {| pathname := path; state := VNull |}
      {| location := {| pathname := EmptyString; state := VNull |}; history := [];
         extract := None; next_instance := 0; pending := []; toasts := [];
         console := []; document := d |}.
Proof. reflexivity. Qed.

Lemma Coherent_boot (path : string) (d : Document) : Coherent (App.boot path d).
Proof.
  rewrite boot_as_goto. apply Coherent_goto.
  constructor; cbn; try discriminate; try reflexivity; auto.
Qed.

Lemma Navigated_boot (path : string) (d : Document) : Navigated (App.boot path d).
Proof.
  destruct (goto_as_enter {| pathname := path; state := VNull |}
              {| location := {| pathname := path; state := VNull |}; history := [];
                 extract := None; next_instance := 0; pending := []; toasts := [];
                 console := []; document := d |}) as (Hl & Hh & _).
  unfold App.boot. constructor.
  - intros l Hin. rewrite Hh in Hin. cbn in Hin.
    destruct Hin as [<- | []]. left. reflexivity.
  - rewrite Hl, Hh. left. reflexivity.
Qed.

Lemma Coherent_set_state self f w :
  (forall s, isLoading (f s) = isLoading s) ->
  Coherent w -> Coherent (exec (set_state self f) w).
Proof.
  intros Hf C. unfold exec, set_state.
  destruct (extract w) as [[i s]|] eqn:E; [|exact C].
  destruct (Nat.eqb i self); [|exact C].
  destruct C as [C1 C2 C3 C4 C5]. cbn.
  constructor; cbn.
  - rewrite E in C1. exact C1.
  - intros j t H. injection H as <- <-. eauto.
  - exact C3.
  - exact C4.
  - intros j t H. injection H as <- <-. rewrite Hf. exact (C5 i s E).
Qed.

Lemma in_flight_of_snoc (j : nat) (l : list Pending) (p : Pending) :
  filter (App.submitted_by j) (l ++ [p])
  = filter (App.submitted_by j) l ++ (if App.submitted_by j p then [p] else []).
Proof. rewrite filter_app. reflexivity. Qed.

Lemma Coherent_submit (w : World) (i : nat) (s : ExtractState) :
  extract w = Some (i, s) ->
  Extract.submit_disabled s = false ->
  Coherent w ->
  Coherent (exec (Extract.handleSubmit_start i (formData s)) w).
Proof.
  intros E Hd [C1 C2 C3 C4 C5].
  assert (Hl : isLoading s = false).
  { unfold Extract.submit_disabled in Hd. apply orb_false_iff in Hd. tauto. }
  assert (H0 : App.in_flight_of i w = []).
  { destruct (App.in_flight_of i w) eqn:F; [reflexivity|].
    assert (isLoading s = true) by (apply (C5 i s E); rewrite F; discriminate).
    congruence. }
  unfold exec, Extract.handleSubmit_start, preventDefault, bind, ret, setIsLoading,
    set_state, fetch.
  rewrite E, Nat.eqb_refl. cbn.
  constructor; cbn; unfold App.in_flight_of in *; cbn.
  - rewrite E in C1. exact C1.
  - intros j t H. injection H as <- _. eauto.
  - intros j H. rewrite in_flight_of_snoc, C3 by exact H. cbn.
    assert (i < next_instance w) by eauto.
    destruct (Nat.eqb_spec i j); [lia | reflexivity].
  - intros j. rewrite in_flight_of_snoc. cbn.
    destruct (Nat.eqb_spec i j) as [<- | _].
    + rewrite H0. cbn. lia.
    + rewrite app_nil_r. apply C4.
  - intros j t H. injection H as <- <-. cbn.
    rewrite in_flight_of_snoc. cbn. rewrite Nat.eqb_refl, H0. cbn.
    split; [discriminate | reflexivity].
Qed.

(** Taking the request of [self] out of the requests on their way. *)
Lemma settle_in_flight (self : nat) fd req (l1 l2 : list Pending) :
  (forall j, length (filter (App.submitted_by j)
                       (l1 ++ PendingSubmit self fd req :: l2)) <= 1) ->
  filter (App.submitted_by self) (l1 ++ l2) = []
  /\ (forall j, j <> self ->
        filter (App.submitted_by j) (l1 ++ l2)
        = filter (App.submitted_by j) (l1 ++ PendingSubmit self fd req :: l2)).
Proof.
  intros H. split.
  - specialize (H self). rewrite filter_app in H. cbn in H.
    rewrite Nat.eqb_refl in H. rewrite length_app in H. cbn in H.
    rewrite filter_app.
    destruct (filter (App.submitted_by self) l1); [|cbn in H; lia].
    destruct (filter (App.submitted_by self) l2); [reflexivity | cbn in H; lia].
  - intros j Hj. rewrite !filter_app. cbn.
    destruct (Nat.eqb_spec self j); [congruence | reflexivity].
Qed.

Lemma Coherent_settled_failure (w : World) self fd req l1 l2 e :
  pending w = l1 ++ PendingSubmit self fd req :: l2 ->
  Coherent w ->
  Coherent (after_failure self e (with_pending (l1 ++ l2) w)).
Proof.
  intros Hp [C1 C2 C3 C4 C5].
  destruct (after_failure_spec self e (with_pending (l1 ++ l2) w))
    as (Hl & _ & Hq & Hn & _ & _ & _ & Hx).
  cbn [pending location extract next_instance with_pending] in Hl, Hq, Hn, Hx.
  assert (Hone : forall j, length (filter (App.submitted_by j)
                   (l1 ++ PendingSubmit self fd req :: l2)) <= 1)
    by (intros j; specialize (C4 j); unfold App.in_flight_of in C4;
        rewrite Hp in C4; exact C4).
  destruct (settle_in_flight _ _ _ _ _ Hone) as (Hself & Hother).
  assert (Hin : forall j, App.in_flight_of j (after_failure self e (with_pending (l1 ++ l2) w))
                          = filter (App.submitted_by j) (l1 ++ l2))
    by (intros j; unfold App.in_flight_of; rewrite Hq; reflexivity).
  unfold App.in_flight_of in C3, C4, C5. rewrite Hp in C3, C4, C5.
  constructor.
  - unfold App.view in *. rewrite Hx, Hl. unfold stop_loading.
    destruct (extract w) as [[i s]|]; [destruct (Nat.eqb i self)|]; exact C1.
  - intros i s H. rewrite Hx in H. rewrite Hn. unfold stop_loading in H.
    destruct (extract w) as [[j t]|] eqn:E; [|discriminate].
    destruct (Nat.eqb j self); injection H as <- _; eauto.
  - intros j H. rewrite Hin. rewrite Hn in H.
    destruct (Nat.eq_dec j self) as [-> | Hj]; [exact Hself|].
    rewrite Hother by exact Hj. auto.
  - intros j. rewrite Hin.
    destruct (Nat.eq_dec j self) as [-> | Hj]; [rewrite Hself; cbn; lia|].
    rewrite Hother by exact Hj. auto.
  - intros i s H. rewrite Hx in H. rewrite Hin. unfold stop_loading in H.
    destruct (extract w) as [[j t]|] eqn:E; [|discriminate].
    destruct (Nat.eqb_spec j self) as [-> | Hj]; injection H as <- <-.
    + rewrite Hself. cbn. split; [discriminate | congruence].
    + rewrite Hother by exact Hj. auto.
Qed.

Lemma Coherent_settled_success (w : World) self fd req l1 l2 found :
  pending w = l1 ++ PendingSubmit self fd req :: l2 ->
  Coherent w ->
  Coherent (after_success self fd found (with_pending (l1 ++ l2) w)).
Proof.
  intros Hp [C1 C2 C3 C4 C5].
  destruct (after_success_spec self fd found (with_pending (l1 ++ l2) w))
    as (Hl & _ & Hq & Hn & _ & _ & _ & Hx).
  cbn [pending location extract next_instance with_pending] in Hl, Hq, Hn, Hx.
  assert (Hone : forall j, length (filter (App.submitted_by j)
                   (l1 ++ PendingSubmit self fd req :: l2)) <= 1)
    by (intros j; specialize (C4 j); unfold App.in_flight_of in C4;
        rewrite Hp in C4; exact C4).
  destruct (settle_in_flight _ _ _ _ _ Hone) as (Hself & Hother).
  assert (Hin : forall j, App.in_flight_of j (after_success self fd found (with_pending (l1 ++ l2) w))
                          = filter (App.submitted_by j) (l1 ++ l2))
    by (intros j; unfold App.in_flight_of; rewrite Hq; reflexivity).
  unfold App.in_flight_of in C3, C4, C5. rewrite Hp in C3, C4, C5.
  constructor.
  - unfold App.view. rewrite Hx, Hl. cbn. discriminate.
  - intros i s H. rewrite Hx in H. discriminate.
  - intros j H. rewrite Hin. rewrite Hn in H.
    destruct (Nat.eq_dec j self) as [-> | Hj]; [exact Hself|].
    rewrite Hother by exact Hj. auto.
  - intros j. rewrite Hin.
    destruct (Nat.eq_dec j self) as [-> | Hj]; [rewrite Hself; cbn; lia|].
    rewrite Hother by exact Hj. auto.
  - intros i s H. rewrite Hx in H. discriminate.
Qed.

(** The download helper leaves the router, the mounted Extract and the
    requests on their way alone. *)
Lemma handleDownload_frame format o w :
  location (exec (Status.handleDownload_resume format o) w) = location w
  /\ history (exec (Status.handleDownload_resume format o) w) = history w
  /\ extract (exec (Status.handleDownload_resume format o) w) = extract w
  /\ next_instance (exec (Status.handleDownload_resume format o) w) = next_instance w
  /\ pending (exec (Status.handleDownload_resume format o) w) = pending w.
Proof.
  unfold exec, Status.handleDownload_resume, try_catch, bind, await, throw, ret, lift.
  destruct o as [e | r].
  - cbn. repeat split; reflexivity.
  - destruct (Http.ok r); cbn; [|repeat split; reflexivity].
    destruct (Http.body r); cbn; repeat split; reflexivity.
Qed.

Lemma Coherent_pending_download (w : World) (l : list Pending) :
  (forall i, filter (App.submitted_by i) l = App.in_flight_of i w) ->
  Coherent w -> Coherent (with_pending l w).
Proof.
  intros H. apply Coherent_frame; try reflexivity. exact H.
Qed.

Lemma Coherent_download_settled (w : World) from format req l1 l2 o :
  pending w = l1 ++ PendingDownload from format req :: l2 ->
  Coherent w ->
  Coherent (exec (Status.handleDownload_resume format o) (with_pending (l1 ++ l2) w)).
Proof.
  intros Hp C.
  destruct (handleDownload_frame format o (with_pending (l1 ++ l2) w))
    as (Hl & _ & Hx & Hn & Hq).
  eapply Coherent_frame; [rewrite Hl; reflexivity | exact Hx | exact Hn | |].
  - intros i. unfold App.in_flight_of. rewrite Hq. reflexivity.
  - apply Coherent_pending_download; [|exact C].
    intros i. unfold App.in_flight_of. rewrite Hp, !filter_app. reflexivity.
Qed.

Lemma exec_Results (armed : bool) (w : World) :
  exec (Results.Results armed) w = w
  \/ exec (Results.Results armed) w
     = goto {| pathname := "/extract"; state := VNull |} w.
Proof.
  destruct (Js.truthy (state (location w))) eqn:Ht.
  - left. apply Results_past_guard. exact Ht.
  - destruct armed.
    + right. unfold exec. rewrite (Results_redirects w Ht). reflexivity.
    + left. unfold exec. rewrite (Results_first_render_inert w Ht). reflexivity.
Qed.

Lemma nav_ok_null : nav_ok VNull.
Proof. left. reflexivity. Qed.

Create HintDb app.
#[local] Hint Resolve Navigated_goto Navigated_frame nav_ok_null : app.

(** Every step of the application keeps the world coherent. *)
Lemma Coherent_step (w : World) (ev : App.Event) (w' : World) :
  Coherent w -> App.step w ev = Some w' -> Coherent w'.
Proof.
  intros C H. destruct ev; cbn [App.step] in H.
  - destruct (App.showing LandingView w); [|discriminate].
    injection H as <-. apply Coherent_goto; exact C.
  - destruct (extract w); [|discriminate].
    injection H as <-. apply Coherent_goto; exact C.
  - destruct (extract w) as [[i s]|] eqn:E; [|discriminate].
    destruct (Extract.inputs_disabled s); [discriminate|].
    injection H as <-. apply Coherent_set_state; [reflexivity | exact C].
  - destruct (extract w) as [[i s]|] eqn:E; [|discriminate].
    destruct (Extract.submit_disabled s) eqn:D; [discriminate|].
    injection H as <-. apply Coherent_submit; assumption.
  - destruct (extract w) as [[i s]|] eqn:E; [|discriminate].
    destruct (Extract.download_offered s); [|discriminate].
    injection H as <-. apply Coherent_pending_download; [|exact C].
    intros j. unfold App.in_flight_of. rewrite in_flight_of_snoc. cbn.
    apply app_nil_r.
  - destruct (App.showing ResultsView w); [|discriminate].
    injection H as <-.
    destruct (exec_Results armed w) as [-> | ->]; [exact C | apply Coherent_goto; exact C].
  - destruct (App.results_on_screen w); [|discriminate].
    injection H as <-. apply Coherent_goto; exact C.
  - destruct (App.results_on_screen w); [|discriminate].
    injection H as <-. apply Coherent_goto; exact C.
  - destruct (App.results_on_screen w); [|discriminate].
    injection H as <-. apply Coherent_goto; exact C.
  - destruct (App.showing StatusView w); [|discriminate].
    injection H as <-. apply Coherent_goto; exact C.
  - destruct (App.showing StatusView w); [|discriminate].
    injection H as <-. apply Coherent_goto; exact C.
  - destruct (App.showing StatusView w); [|discriminate].
    injection H as <-. apply Coherent_pending_download; [|exact C].
    intros j. unfold App.in_flight_of. rewrite in_flight_of_snoc. cbn.
    apply app_nil_r.
  - destruct (App.take k (pending w)) as [[p rest]|] eqn:T; [|discriminate].
    destruct p as [self fd req | ]; [|discriminate].
    injection H as <-.
    destruct (take_split _ _ T) as (l1 & l2 & Hp & ->).
    unfold exec.
    destruct (resume_cases self fd o (with_pending (l1 ++ l2) w))
      as [(e & ->) | (found & ->)]; cbn [fst].
    + eapply Coherent_settled_failure; eassumption.
    + eapply Coherent_settled_success; eassumption.
  - destruct (App.take k (pending w)) as [[p rest]|] eqn:T; [|discriminate].
    destruct p as [ | from format req]; [discriminate|].
    destruct (take_split _ _ T) as (l1 & l2 & Hp & ->).
    assert (w' = exec (Status.handleDownload_resume format o)
                   (with_pending (l1 ++ l2) w))
      by (destruct from; injection H as <-; reflexivity).
    subst w'. eapply Coherent_download_settled; eassumption.
  - destruct (nth_error (history w) k); [|discriminate].
    injection H as <-. apply Coherent_enter; exact C.
Qed.

Lemma reachable_Coherent (w : World) : App.reachable w -> Coherent w.
Proof.
  induction 1 as [path d | w ev w' _ IH Hs].
  - apply Coherent_boot.
  - eapply Coherent_step; eassumption.
Qed.

Lemma set_state_frame self f w :
  location (exec (set_state self f) w) = location w
  /\ history (exec (set_state self f) w) = history w.
Proof.
  unfold exec, set_state.
  destruct (extract w) as [[i s]|]; [destruct (Nat.eqb i self)|];
    split; reflexivity.
Qed.

Lemma handleSubmit_start_frame self fd w :
  location (exec (Extract.handleSubmit_start self fd) w) = location w
  /\ history (exec (Extract.handleSubmit_start self fd) w) = history w.
Proof.
  unfold exec, Extract.handleSubmit_start, preventDefault, bind, ret, setIsLoading.
  rewrite set_state_total. cbn [fst fetch with_pending location history].
  apply set_state_frame.
Qed.

(** Every step of the application keeps the session's locations free
    of any state but that of a successful extraction. *)
Lemma Navigated_step (w : World) (ev : App.Event) (w' : World) :
  Navigated w -> App.step w ev = Some w' -> Navigated w'.
Proof.
  intros N H. destruct ev; cbn [App.step] in H.
  - destruct (App.showing LandingView w); [|discriminate].
    injection H as <-. apply Navigated_goto; auto with app.
  - destruct (extract w); [|discriminate].
    injection H as <-. apply Navigated_goto; auto with app.
  - destruct (extract w) as [[i s]|] eqn:E; [|discriminate].
    destruct (Extract.inputs_disabled s); [discriminate|].
    injection H as <-.
    destruct (set_state_frame i
      (fun s0 => {| formData := Extract.with_field field val (formData s0);
                    isLoading := isLoading s0; emails := emails s0 |}) w).
    eapply Navigated_frame; eassumption.
  - destruct (extract w) as [[i s]|] eqn:E; [|discriminate].
    destruct (Extract.submit_disabled s) eqn:D; [discriminate|].
    injection H as <-.
    destruct (handleSubmit_start_frame i (formData s) w).
    eapply Navigated_frame; eassumption.
  - destruct (extract w) as [[i s]|] eqn:E; [|discriminate].
    destruct (Extract.download_offered s); [|discriminate].
    injection H as <-. eapply Navigated_frame; [| | exact N]; reflexivity.
  - destruct (App.showing ResultsView w); [|discriminate].
    injection H as <-.
    destruct (exec_Results armed w) as [-> | ->]; [exact N | auto with app].
  - destruct (App.results_on_screen w); [|discriminate].
    injection H as <-. apply Navigated_goto; auto with app.
  - destruct (App.results_on_screen w); [|discriminate].
    injection H as <-. apply Navigated_goto; auto with app.
  - destruct (App.results_on_screen w); [|discriminate].
    injection H as <-. apply Navigated_goto; auto with app.
  - destruct (App.showing StatusView w); [|discriminate].
    injection H as <-. apply Navigated_goto; auto with app.
  - destruct (App.showing StatusView w); [|discriminate].
    injection H as <-. apply Navigated_goto; auto with app.
  - destruct (App.showing StatusView w); [|discriminate].
    injection H as <-. eapply Navigated_frame; [| | exact N]; reflexivity.
  - destruct (App.take k (pending w)) as [[p rest]|] eqn:T; [|discriminate].
    destruct p as [self fd req | ]; [|discriminate].
    injection H as <-. unfold exec.
    destruct (resume_cases self fd o (with_pending rest w))
      as [(e & ->) | (found & ->)]; cbn [fst].
    + destruct (after_failure_spec self e (with_pending rest w)) as (Hl & Hh & _).
      eapply Navigated_frame; [exact Hl | exact Hh |].
      eapply Navigated_frame; [| | exact N]; reflexivity.
    + destruct (after_success_spec self fd found (with_pending rest w))
        as (Hl & Hh & _).
      destruct N as [N1 N2]. constructor.
      * intros l Hin. rewrite Hh in Hin. apply in_app_or in Hin.
        destruct Hin as [Hin | [<- | []]]; [apply N1; exact Hin|].
        right. eexists _, _. reflexivity.
      * rewrite Hl, Hh. apply in_or_app. right. left. reflexivity.
  - destruct (App.take k (pending w)) as [[p rest]|] eqn:T; [|discriminate].
    destruct p as [ | from format req]; [discriminate|].
    assert (w' = exec (Status.handleDownload_resume format o) (with_pending rest w))
      by (destruct from; injection H as <-; reflexivity).
    subst w'.
    destruct (handleDownload_frame format o (with_pending rest w)) as (Hl & Hh & _).
    eapply Navigated_frame; [exact Hl | exact Hh |].
    eapply Navigated_frame; [| | exact N]; reflexivity.
  - destruct (nth_error (history w) k) as [l|] eqn:E; [|discriminate].
    injection H as <-. apply Navigated_enter; [|exact N].
    eapply nth_error_In. exact E.
Qed.

Lemma reachable_Navigated (w : World) : App.reachable w -> Navigated w.
Proof.
  induction 1 as [path d | w ev w' _ IH Hs].
  - apply Navigated_boot.
  - eapply Navigated_step; eassumption.
Qed.

Lemma reachable_run (w : World) (evs : list App.Event) (w' : World) :
  App.reachable w -> App.run w evs = Some w' -> App.reachable w'.
Proof.
  revert w. induction evs as [|ev evs IH]; intros w R H; cbn in H.
  - injection H as <-. exact R.
  - destruct (App.step w ev) as [w1|] eqn:S; [|discriminate].
    eapply IH; [|exact H]. eapply App.reach_step; eassumption.
Qed.

Lemma reachable_after_events (path : string) (d : Document) (evs : list App.Event) :
  App.run (App.boot path d) evs <> None ->
  App.reachable (after_events (App.boot path d) evs).
Proof.
  unfold after_events. intros H.
  destruct (App.run (App.boot path d) evs) as [w|] eqn:E; [|congruence].
  eapply reachable_run; [apply App.reach_boot | exact E].
Qed.

(* ================================================================== *)
(** ** The status of navigation states *)
(* ================================================================== *)

(** C4.  In every world the application can reach, every location the
    session has been at -- the current one included, so whatever the
    Results view is handed -- carries either no state or the state built
    on a successful extraction, whose [status] is ['success']; no
    [ResultsState] with status [failure] is ever in a location. *)
Theorem failure_status_never_constructed (w : World) :
  App.reachable w ->
  In (location w) (history w)
  /\ forall l, In l (history w) ->
       (state l = VNull \/ get (state l) "status" = Normal (VString "success"))
       /\ get (state l) "status" <> Normal (VString "failure")
       /\ (forall r, Results.rs_status r = Results.failure ->
             state l <> Results.to_value r).
Proof.
  intros R. destruct (reachable_Navigated R) as [N1 N2].
  split; [exact N2|].
  intros l Hin. destruct (N1 l Hin) as [-> | (found & url & ->)].
  - split; [left; reflexivity|]. split; [discriminate|].
    intros r _. discriminate.
  - split; [right; reflexivity|]. split; [discriminate|].
    intros r Hr. unfold Results.to_value, success_state. rewrite Hr. cbn.
    intros H. injection H as _ _ H. discriminate.
Qed.

Lemma failure_status_never_constructed_witness :
  In (location extracted_two) (history extracted_two)
  /\ get (state (location extracted_two)) "status" = Normal (VString "success").
Proof.
  assert (R : App.reachable extracted_two)
    by (apply reachable_after_events; vm_compute; discriminate).
  destruct (failure_status_never_constructed R) as (Hcur & Hall).
  split; [exact Hcur|].
  destruct (Hall _ Hcur) as ([Hnull | Hs] & _); [discriminate Hnull | exact Hs].
Defined.

(* ================================================================== *)
(** ** One request at a time *)
(* ================================================================== *)

(** C6, as stated, fails: after leaving the Extract view while a
    request is on its way and coming back, the fresh form accepts a
    submission, and a second request goes out while the first is still
    in flight. *)
Lemma second_request_while_first_in_flight :
  App.reachable left_and_returned
  /\ length (App.in_flight left_and_returned) = 1
  /\ exists w',
       App.step left_and_returned App.Submit = Some w'
       /\ length (App.in_flight w') = 2.
Proof.
  split; [apply reachable_after_events; vm_compute; discriminate|].
  split; [reflexivity|].
  eexists. split; reflexivity.
Qed.

(** C6, amended.  Within one mounted instance of the Extract view no
    second request is issued while its request is in flight: from the
    moment [handleSubmit] sets the loading flag until that request
    settles the instance's submit control is disabled and a submission
    is not on offer, so an instance never has two requests in flight. *)
Theorem one_request_per_mounted_form (w : World) :
  App.reachable w ->
  (forall i, length (App.in_flight_of i w) <= 1)
  /\ (forall i s,
        extract w = Some (i, s) -> App.in_flight_of i w <> [] ->
        isLoading s = true
        /\ Extract.submit_disabled s = true
        /\ App.step w App.Submit = None).
Proof.
  intros R. destruct (reachable_Coherent R) as [_ _ _ C4 C5].
  split; [exact C4|].
  intros i s E Hin.
  assert (Hl : isLoading s = true) by (apply (C5 i s E); exact Hin).
  assert (Hd : Extract.submit_disabled s = true)
    by (unfold Extract.submit_disabled; rewrite Hl; apply orb_true_r).
  repeat split; try assumption.
  cbn [App.step]. rewrite E, Hd. reflexivity.
Qed.

Lemma one_request_per_mounted_form_witness :
  length (App.in_flight_of 0 (after_events (App.boot "/extract" empty_document)
                                 fill_and_submit)) <= 1
  /\ App.step (after_events (App.boot "/extract" empty_document) fill_and_submit)
       App.Submit = None.
Proof.
  assert (R : App.reachable (after_events (App.boot "/extract" empty_document)
                               fill_and_submit))
    by (apply reachable_after_events; vm_compute; discriminate).
  destruct (one_request_per_mounted_form R) as (H1 & H2).
  split; [apply H1|].
  eapply H2; [reflexivity | vm_compute; discriminate].
Defined.

(* ================================================================== *)
(** ** The loading flag *)
(* ================================================================== *)

(** C10.  However [handleSubmit] completes -- success, a status outside
    200-299, a rejected request or an unreadable body -- the last thing
    it does is [setIsLoading(false)]: either it has navigated to Results
    (Extract is gone) or its form is still mounted with the same fields,
    not loading, inputs enabled and the submit control enabled exactly
    when the form is valid.  In every reachable world an instance's
    loading flag is set exactly while its request is in flight. *)
Theorem handleSubmit_always_stops_loading self fd o w :
  (exists w1,
     exec (Extract.handleSubmit_resume self fd o) w
     = exec (setIsLoading self false) w1)
  /\ (forall s,
        extract w = Some (self, s) ->
        let w' := exec (Extract.handleSubmit_resume self fd o) w in
        (extract w' = None /\ App.view w' = Some ResultsView)
        \/ (exists s',
              extract w' = Some (self, s')
              /\ formData s' = formData s
              /\ isLoading s' = false
              /\ Extract.inputs_disabled s' = false
              /\ Extract.submit_disabled s'
                 = Js.not (Extract.isFormValid (formData s))))
  /\ (App.reachable w ->
      forall i s, extract w = Some (i, s) ->
        (isLoading s = true <-> App.in_flight_of i w <> [])).
Proof.
  split; [|split].
  - unfold exec at 1.
    destruct (resume_cases self fd o w) as [(e & ->) | (found & ->)];
      eexists; reflexivity.
  - intros s E w'. subst w'. unfold exec.
    destruct (resume_cases self fd o w) as [(e & ->) | (found & ->)]; cbn [fst].
    + right.
      destruct (after_failure_spec self e w) as (_ & _ & _ & _ & _ & _ & _ & Hx).
      rewrite E in Hx. cbn in Hx. rewrite Nat.eqb_refl in Hx.
      eexists. split; [exact Hx|]. cbn.
      unfold Extract.submit_disabled. cbn. rewrite orb_false_r.
      repeat split; reflexivity.
    + left.
      destruct (after_success_spec self fd found w) as (Hl & _ & _ & _ & _ & _ & _ & Hx).
      split; [exact Hx|]. unfold App.view. rewrite Hl. reflexivity.
  - intros R i s E. destruct (reachable_Coherent R) as [_ _ _ _ C5]. auto.
Qed.

Lemma handleSubmit_always_stops_loading_witness :
  (exists s',
     extract (exec (Extract.handleSubmit_resume 0 sample_form
                      (Http.Rejected (TypeError "Failed to fetch")))
                   submitted_world) = Some (0, s')
     /\ isLoading s' = false)
  /\ (forall i s, extract (App.boot "/extract" empty_document) = Some (i, s) ->
        (isLoading s = true
         <-> App.in_flight_of i (App.boot "/extract" empty_document) <> [])).
Proof.
  split.
  - destruct (handleSubmit_always_stops_loading 0 sample_form
                (Http.Rejected (TypeError "Failed to fetch")) submitted_world)
      as (_ & H & _).
    destruct (H _ eq_refl) as [(Hx & _) | (s' & Hx & _ & Hl & _)].
    + discriminate Hx.
    + exists s'. split; assumption.
  - destruct (handleSubmit_always_stops_loading 0 sample_form
                (Http.Rejected (TypeError "Failed to fetch"))
                (App.boot "/extract" empty_document))
      as (_ & _ & H).
    apply H. apply App.reach_boot.
Defined.

(* ================================================================== *)
(** ** Typing into the form and submitting it *)
(* ================================================================== *)

(** X1.  Typing into one input of the mounted form sets that field to
    the typed text and leaves the other two fields, the loading flag,
    the stored emails, the location, the requests on their way and the
    notifications as they were. *)
Theorem handleInputChange_sets_one_field self field val w s :
  extract w = Some (self, s) ->
  exists s',
    extract (exec (Extract.handleInputChange self field val) w) = Some (self, s')
    /\ field_value field (formData s') = val
    /\ (forall g, g <> field ->
          field_value g (formData s') = field_value g (formData s))
    /\ isLoading s' = isLoading s
    /\ emails s' = emails s
    /\ location (exec (Extract.handleInputChange self field val) w) = location w
    /\ pending (exec (Extract.handleInputChange self field val) w) = pending w
    /\ toasts (exec (Extract.handleInputChange self field val) w) = toasts w.
Proof.
  intros E.
  unfold exec, Extract.handleInputChange, setFormData, set_state.
  rewrite E, Nat.eqb_refl. cbn.
  eexists. split; [reflexivity|]. cbn.
  split; [destruct field; reflexivity|].
  split; [|repeat split; reflexivity].
  intros g Hg. destruct field, g; try reflexivity; congruence.
Qed.

Lemma handleInputChange_sets_one_field_witness :
  exists s',
    extract (exec (Extract.handleInputChange 0 Extract.f_postUrl "https://example.com/p")
                  (App.boot "/extract" empty_document)) = Some (0, s')
    /\ postUrl (formData s') = "https://example.com/p"
    /\ email (formData s') = EmptyString.
Proof.
  destruct (@handleInputChange_sets_one_field 0 Extract.f_postUrl
              "https://example.com/p" (App.boot "/extract" empty_document)
              initial_extract eq_refl)
    as (s' & Hx & Hv & Ho & _).
  exists s'. split; [exact Hx|]. split; [exact Hv|].
  apply (Ho Extract.f_email). discriminate.
Defined.

(** X2.  A submission issues exactly one request -- a POST to the
    extraction endpoint whose JSON payload carries the form's email and
    password and its post URL under the key [post_url] -- and puts the
    form into its loading state: the fields keep their text, the inputs
    and the submit control are disabled, the button reads "Extracting...
    please wait", typing is not possible, and nothing navigates or
    notifies. *)
Theorem submit_issues_one_request (w : World) (i : nat) (s : ExtractState)
  (w' : World) :
  extract w = Some (i, s) ->
  App.step w App.Submit = Some w' ->
  pending w'
  = pending w ++ [PendingSubmit i (formData s) (Extract.extract_request (formData s))]
  /\ Http.method (Extract.extract_request (formData s)) = "POST"
  /\ (exists body,
        Http.payload (Extract.extract_request (formData s)) = Some body
        /\ get body "email" = Normal (VString (email (formData s)))
        /\ get body "password" = Normal (VString (password (formData s)))
        /\ get body "post_url" = Normal (VString (postUrl (formData s)))
        /\ get body "postUrl" = Normal VUndefined)
  /\ (exists s',
        extract w' = Some (i, s')
        /\ formData s' = formData s
        /\ isLoading s' = true
        /\ Extract.inputs_disabled s' = true
        /\ Extract.submit_disabled s' = true
        /\ Extract.submit_label s' = "Extracting... please wait"
        /\ (forall field val, App.step w' (App.InputChange field val) = None))
  /\ location w' = location w
  /\ toasts w' = toasts w.
Proof.
  intros E H. cbn [App.step] in H. rewrite E in H.
  destruct (Extract.submit_disabled s); [discriminate|].
  injection H as <-.
  unfold exec, Extract.handleSubmit_start, preventDefault, bind, ret, setIsLoading,
    set_state, fetch.
  rewrite E, Nat.eqb_refl. cbn.
  split; [reflexivity|]. split; [reflexivity|].
  split; [eexists; repeat split; reflexivity|].
  split; [|split; reflexivity].
  eexists. split; [reflexivity|]. cbn.
  unfold Extract.submit_disabled. cbn. rewrite orb_true_r.
  repeat split; reflexivity.
Qed.

Lemma submit_issues_one_request_witness :
  exists w',
    App.step (exec (setFormData 0 (fun _ => sample_form))
                (App.boot "/extract" empty_document)) App.Submit = Some w'
    /\ pending w'
       = [PendingSubmit 0 sample_form (Extract.extract_request sample_form)].
Proof.
  exists (exec (Extract.handleSubmit_start 0 sample_form)
            (exec (setFormData 0 (fun _ => sample_form))
               (App.boot "/extract" empty_document))).
  split; [reflexivity|].
  exact (proj1 (@submit_issues_one_request
                  (exec (setFormData 0 (fun _ => sample_form))
                     (App.boot "/extract" empty_document))
                  0 {| formData := sample_form; isLoading := false;
                       emails := VArray [] |}
                  _ eq_refl eq_refl)).
Defined.

(* ================================================================== *)
(** ** Every way [handleSubmit] can end *)
(* ================================================================== *)

Lemma get_of_present (v : value) (k : string) :
  v <> VNull -> v <> VUndefined -> exists x, get v k = Normal x.
Proof.
  intros Hn Hu. destruct v; try congruence; cbn; eexists; reflexivity.
Qed.

(** What the outcome of the request makes of [handleSubmit]. *)
Lemma resume_by_outcome self fd o w :
  (extraction_succeeds o = false /\
   exists e, Extract.handleSubmit_resume self fd o w = (after_failure self e w, Normal tt))
  \/ (extraction_succeeds o = true /\
      exists found,
        Extract.handleSubmit_resume self fd o w
        = (after_success self fd found w, Normal tt)).
Proof.
  destruct o as [e | r]; cbn [extraction_succeeds].
  - left. split; [reflexivity|]. exists e. apply resume_rejected.
  - destruct (Http.ok r) eqn:Hok; cbn [andb].
    + destruct (Http.body r) as [result | e] eqn:Hb.
      * destruct (get result "emails") as [found | e] eqn:Hg.
        -- right. split.
           ++ destruct result; try reflexivity; discriminate.
           ++ exists found. eapply resume_parsed; eassumption.
        -- left. split.
           ++ destruct result; try reflexivity; discriminate.
           ++ exists e. eapply resume_no_property; eassumption.
      * left. split; [reflexivity|]. exists e. eapply resume_bad_body; eassumption.
    + left. split; [reflexivity|]. eexists. apply resume_not_ok; assumption.
Qed.

(** X4.  [handleSubmit] shows its error notification exactly when the
    request did not get through -- the fetch was rejected, the status
    is outside 200-299, the body is not JSON, or the body is the JSON
    value [null]: then it shows exactly one, logs the error and stays
    where it is; otherwise it shows and logs nothing and ends on the
    Results route.  Either way it sends no further request and leaves
    the document alone. *)
Theorem handleSubmit_notifies_iff_failure self fd o w :
  (extraction_succeeds o = false ->
   toasts (exec (Extract.handleSubmit_resume self fd o) w)
   = toasts w ++ [Extract.extractionFailed]
   /\ (exists e, console (exec (Extract.handleSubmit_resume self fd o) w)
                 = console w ++ [("Extraction error:", e)])
   /\ location (exec (Extract.handleSubmit_resume self fd o) w) = location w
   /\ history (exec (Extract.handleSubmit_resume self fd o) w) = history w)
  /\ (extraction_succeeds o = true ->
      toasts (exec (Extract.handleSubmit_resume self fd o) w) = toasts w
      /\ console (exec (Extract.handleSubmit_resume self fd o) w) = console w
      /\ pathname (location (exec (Extract.handleSubmit_resume self fd o) w))
         = "/results"
      /\ extract (exec (Extract.handleSubmit_resume self fd o) w) = None)
  /\ pending (exec (Extract.handleSubmit_resume self fd o) w) = pending w
  /\ document (exec (Extract.handleSubmit_resume self fd o) w) = document w.
Proof.
  unfold exec.
  destruct (resume_by_outcome self fd o w)
    as [(Hs & e & ->) | (Hs & found & ->)]; cbn [fst]; rewrite Hs.
  - destruct (after_failure_spec self e w)
      as (Hl & Hh & Hp & _ & Hd & Ht & Hc & _).
    split; [intros _|split; [discriminate|split; assumption]].
    split; [exact Ht|]. split; [exists e; exact Hc|]. split; assumption.
  - destruct (after_success_spec self fd found w)
      as (Hl & _ & Hp & _ & Hd & Ht & Hc & Hx).
    split; [discriminate|]. split; [intros _|split; assumption].
    rewrite Hl. repeat split; assumption.
Qed.

Lemma handleSubmit_notifies_iff_failure_witness :
  toasts (exec (Extract.handleSubmit_resume 0 sample_form
                  (Http.Resolved {| Http.status := 200; Http.body := Normal VNull |}))
               submitted_world)
  = [Extract.extractionFailed]
  /\ toasts (exec (Extract.handleSubmit_resume 0 sample_form
                     (Http.Resolved two_emails)) submitted_world) = [].
Proof.
  split.
  - exact (proj1 (proj1 (@handleSubmit_notifies_iff_failure 0 sample_form
             (Http.Resolved {| Http.status := 200; Http.body := Normal VNull |})
             submitted_world) eq_refl)).
  - exact (proj1 (proj1 (proj2 (@handleSubmit_notifies_iff_failure 0 sample_form
             (Http.Resolved two_emails) submitted_world)) eq_refl)).
Defined.

(** X5.  On a response that got through, the [emails] handed to
    Results is the body's [emails] property when that is truthy --
    whatever it is, array or not -- and the empty array when it is
    missing or falsy ([null], [false], [0], the empty string); [postUrl]
    is the submitted URL and [status] is ['success']. *)
Theorem handleSubmit_emails_or_empty self fd (r : Http.response value)
  result found w :
  Http.ok r = true ->
  Http.body r = Normal result ->
  get result "emails" = Normal found ->
  location (exec (Extract.handleSubmit_resume self fd (Http.Resolved r)) w)
  = {| pathname := "/results";
       state := VObject [("emails", if Js.truthy found then found else VArray []);
                         ("postUrl", VString (postUrl fd));
                         ("status", VString "success")] |}.
Proof.
  intros Hok Hb Hg. unfold exec.
  rewrite (@resume_parsed self fd r result found w Hok Hb Hg). cbn [fst].
  destruct (after_success_spec self fd found w) as (Hl & _).
  rewrite Hl. reflexivity.
Qed.

Lemma handleSubmit_emails_or_empty_witness :
  get (state (location
         (exec (Extract.handleSubmit_resume 0 sample_form
                  (Http.Resolved {| Http.status := 201;
                                    Http.body := Normal (VObject [("emails", VNull)]) |}))
               submitted_world))) "emails"
  = Normal (VArray [])
  /\ get (state (location
            (exec (Extract.handleSubmit_resume 0 sample_form
                     (Http.Resolved {| Http.status := 200;
                                       Http.body := Normal (VArray []) |}))
                  submitted_world))) "emails"
     = Normal (VArray []).
Proof.
  split.
  - rewrite (@handleSubmit_emails_or_empty 0 sample_form
               {| Http.status := 201; Http.body := Normal (VObject [("emails", VNull)]) |}
               (VObject [("emails", VNull)]) VNull submitted_world
               eq_refl eq_refl eq_refl).
    reflexivity.
  - rewrite (@handleSubmit_emails_or_empty 0 sample_form
               {| Http.status := 200; Http.body := Normal (VArray []) |}
               (VArray []) VUndefined submitted_world
               eq_refl eq_refl eq_refl).
    reflexivity.
Defined.

(* ================================================================== *)
(** ** Downloads that fail, and downloads in a row *)
(* ================================================================== *)

(** X3.  When a download does not get through -- the fetch is
    rejected, the status is outside 200-299 (a 404, say) or the body
    cannot be read -- either copy of the helper logs the error, shows
    exactly one notification and leaves the document as it was: no
    anchor, no object URL, no file saved; nothing navigates. *)
Theorem handleDownload_failure_notifies format o w :
  download_succeeds o = false ->
  exists e w',
    Status.handleDownload_resume format o w = (w', Normal tt)
    /\ Extract.handleDownload_resume format o w = (w', Normal tt)
    /\ document w' = document w
    /\ toasts w' = toasts w ++ [Status.downloadFailed]
    /\ console w' = console w ++ [("Download error:", e)]
    /\ location w' = location w.
Proof.
  intros Hs.
  unfold Extract.handleDownload_resume, Status.handleDownload_resume, try_catch,
    bind, await, throw, ret, lift.
  destruct o as [e | r]; cbn [download_succeeds] in Hs.
  - exists e. eexists. cbn. repeat split; reflexivity.
  - destruct (Http.ok r); cbn [andb negb] in *.
    + destruct (Http.body r) as [b | e]; [discriminate|].
      exists e. eexists. cbn. repeat split; reflexivity.
    + eexists. eexists. cbn. repeat split; reflexivity.
Qed.

Lemma handleDownload_failure_notifies_witness :
  exists e w',
    Status.handleDownload_resume csv
      (Http.Resolved {| Http.status := 404; Http.body := Normal "Not Found" |})
      (App.boot "/status" empty_document) = (w', Normal tt)
    /\ saves (document w') = []
    /\ toasts w' = [Status.downloadFailed]
    /\ console w' = [("Download error:", e)].
Proof.
  destruct (@handleDownload_failure_notifies csv
              (Http.Resolved {| Http.status := 404; Http.body := Normal "Not Found" |})
              (App.boot "/status" empty_document) eq_refl)
    as (e & w' & H1 & _ & Hd & Ht & Hc & _).
  exists e, w'. split; [exact H1|].
  split; [rewrite Hd; reflexivity|]. split; [exact Ht | exact Hc].
Defined.

Lemma download_settles_any format o w :
  document_wf (document w) ->
  document_wf (document (exec (Status.handleDownload_resume format o) w))
  /\ body_children (document (exec (Status.handleDownload_resume format o) w))
     = body_children (document w)
  /\ length (saves (document (exec (Status.handleDownload_resume format o) w)))
     = length (saves (document w)) + (if download_succeeds o then 1 else 0)
  /\ length (object_urls (document (exec (Status.handleDownload_resume format o) w)))
     = length (object_urls (document w)) + (if download_succeeds o then 1 else 0)
  /\ length (toasts (exec (Status.handleDownload_resume format o) w))
     = length (toasts w) + (if download_succeeds o then 0 else 1)
  /\ location (exec (Status.handleDownload_resume format o) w) = location w.
Proof.
  intros Hwf.
  assert (Hfail : forall e,
    let w' := with_toasts (toasts w ++ [Status.downloadFailed])
                (with_console (console w ++ [("Download error:", e)]) w) in
    document_wf (document w')
    /\ body_children (document w') = body_children (document w)
    /\ length (saves (document w')) = length (saves (document w)) + 0
    /\ length (object_urls (document w')) = length (object_urls (document w)) + 0
    /\ length (toasts w') = length (toasts w) + 1
    /\ location w' = location w).
  { intros e w'. subst w'. cbn.
    repeat split; try exact Hwf; try reflexivity; try lia.
    rewrite length_app. cbn. lia. }
  destruct o as [e | r]; cbn [download_succeeds].
  - apply (Hfail e).
  - destruct (Http.ok r) eqn:Hok; cbn [andb].
    + destruct (Http.body r) as [b | e] eqn:Hb.
      * unfold exec. rewrite (@Status_handleDownload_ok format r b w Hok Hb Hwf).
        cbn -[String.append string_of_nat]. rewrite !length_app. cbn.
        repeat split; try reflexivity; try lia.
        intros c Hc. cbn in Hc |- *. rewrite length_app. apply Hwf in Hc. lia.
      * unfold exec, Status.handleDownload_resume, try_catch, bind, await, throw,
          ret, lift.
        rewrite Hok, Hb. apply (Hfail e).
    + unfold exec, Status.handleDownload_resume, try_catch, bind, await, throw,
        ret, lift.
      rewrite Hok. apply (Hfail (Error "Download failed")).
Qed.

(** X13.  However many downloads settle one after the other, and
    however each of them ends, the body's children are as before and
    the document stays well formed; every download that got through has
    saved one file and left one object URL registered (none is ever
    revoked), every other one has shown one notification, and nothing
    has navigated. *)
Theorem downloads_in_a_row (l : list (DownloadFormat * Http.outcome Http.blob))
  (w : World) :
  document_wf (document w) ->
  document_wf (document (download_all l w))
  /\ body_children (document (download_all l w)) = body_children (document w)
  /\ length (saves (document (download_all l w)))
     = length (saves (document w)) + length (filter got_through l)
  /\ length (object_urls (document (download_all l w)))
     = length (object_urls (document w)) + length (filter got_through l)
  /\ length (toasts (download_all l w))
     = length (toasts w) + (length l - length (filter got_through l))
  /\ location (download_all l w) = location w.
Proof.
  revert w. induction l as [|[format o] l IH]; intros w Hwf.
  - cbn. repeat split; try lia. exact Hwf.
  - cbn [download_all].
    destruct (@download_settles_any format o w Hwf) as (Hwf' & Hb & Hs & Hu & Ht & Hl).
    destruct (IH _ Hwf') as (IH1 & IH2 & IH3 & IH4 & IH5 & IH6).
    pose proof (filter_length_le got_through l) as Hle.
    split; [exact IH1|]. split; [congruence|].
    cbn [filter]. change (got_through (format, o)) with (download_succeeds o).
    rewrite IH3, IH4, IH5, IH6, Hs, Hu, Ht, Hl.
    destruct (download_succeeds o); cbn [length];
      repeat split; try reflexivity; lia.
Qed.

Lemma downloads_in_a_row_witness :
  let l := [(csv, Http.Resolved {| Http.status := 200; Http.body := Normal "a@x.com" |});
            (txt, Http.Resolved {| Http.status := 404; Http.body := Normal "gone" |});
            (txt, Http.Resolved {| Http.status := 200; Http.body := Normal "a@x.com" |})] in
  body_children (document (download_all l (App.boot "/status" empty_document))) = []
  /\ length (saves (document (download_all l (App.boot "/status" empty_document)))) = 2
  /\ length (toasts (download_all l (App.boot "/status" empty_document))) = 1.
Proof.
  intros l.
  assert (Hwf : document_wf (document (App.boot "/status" empty_document)))
    by (intros c Hc; destruct Hc).
  destruct (@downloads_in_a_row l _ Hwf) as (_ & Hb & Hs & _ & Ht & _).
  split; [exact Hb|]. split; [exact Hs | exact Ht].
Defined.

(* ================================================================== *)
(** ** What Results puts on screen *)
(* ================================================================== *)

Lemma strict_eq_string_spec (v : value) (s : string) :
  strict_eq_string v s = true <-> v = VString s.
Proof.
  destruct v; cbn; try (split; [discriminate | congruence]).
  rewrite String.eqb_eq. split; congruence.
Qed.

Lemma indexed_snd {A} (i : nat) (l : list A) : map snd (Results.indexed i l) = l.
Proof. revert i. induction l as [|x l IH]; intros i; cbn; [|rewrite IH]; reflexivity. Qed.

Lemma indexed_fst {A} (i : nat) (l : list A) :
  map fst (Results.indexed i l) = seq i (length l).
Proof. revert i. induction l as [|x l IH]; intros i; cbn; [|rewrite IH]; reflexivity. Qed.

Lemma get_truthy (v : value) (k : string) :
  Js.truthy v = true -> get v k = Normal (prop v k).
Proof. unfold prop. destruct v; cbn; try discriminate; reflexivity. Qed.

(** The render past the guard, up to the card that lists the emails. *)
Lemma Results_render (armed : bool) (w : World) (emails n : value) :
  Js.truthy (state (location w)) = true ->
  get (state (location w)) "emails" = Normal emails ->
  get emails "length" = Normal n ->
  Results.Results armed w
  = (w,
     match (if strict_eq_zero n then Normal Results.NoEmailsFound
            else match Results.map_rows emails with
                 | Normal r => Normal (Results.EmailRows r)
                 | Throw e => Throw e
                 end) with
     | Normal rows =>
         Normal (Some
           {| Results.badge_variant :=
                if strict_eq_string (prop (state (location w)) "status") "success"
                then "default" else "destructive";
              Results.badge_label :=
                if strict_eq_string (prop (state (location w)) "status") "success"
                then "SUCCESS" else "FAILED";
              Results.found := n;
              Results.source_url := prop (state (location w)) "postUrl";
              Results.heading_count := n;
              Results.listing := rows |})
     | Throw e => Throw e
     end).
Proof.
  intros Ht Hg Hn.
  unfold Results.Results, bind, location_state, Js.not, lift, ret.
  rewrite Ht, Hg. cbn.
  rewrite (@get_truthy _ "postUrl" Ht), (@get_truthy _ "status" Ht), Hn.
  destruct (strict_eq_zero n); [reflexivity|].
  destruct (Results.map_rows emails); reflexivity.
Qed.

Lemma emails_array_truthy (st : value) (items : list value) :
  get st "emails" = Normal (VArray items) -> Js.truthy st = true.
Proof. destruct st; cbn; intros H; try discriminate; reflexivity. Qed.

(** The page for a state whose [emails] is an array. *)
Lemma Results_array_page (armed : bool) (w : World) (items : list value) :
  get (state (location w)) "emails" = Normal (VArray items) ->
  Results.Results armed w
  = (w, Normal (Some
      {| Results.badge_variant :=
           if strict_eq_string (prop (state (location w)) "status") "success"
           then "default" else "destructive";
         Results.badge_label :=
           if strict_eq_string (prop (state (location w)) "status") "success"
           then "SUCCESS" else "FAILED";
         Results.found := VNumber (Js.of_nat (length items));
         Results.source_url := prop (state (location w)) "postUrl";
         Results.heading_count := VNumber (Js.of_nat (length items));
         Results.listing :=
           match items with
           | [] => Results.NoEmailsFound
           | _ :: _ => Results.EmailRows (Results.indexed 0 items)
           end |})).
Proof.
  intros Hg.
  rewrite (@Results_render armed w (VArray items) (VNumber (Js.of_nat (length items)))
             (emails_array_truthy _ Hg) Hg eq_refl).
  destruct items; reflexivity.
Qed.

(** X6.  Handed a state whose [emails] is an array, Results shows the
    number of items (twice), the state's [postUrl], and either the "no
    emails" message -- exactly when the array is empty -- or one row per
    item, in the order of the array and keyed 0, 1, 2, ...; the badge
    reads SUCCESS only when [status] is exactly ['success'] and FAILED
    for any other or missing status. *)
Theorem Results_lists_emails_in_order (armed : bool) (w : World)
  (items : list value) :
  get (state (location w)) "emails" = Normal (VArray items) ->
  exists page,
    Results.Results armed w = (w, Normal (Some page))
    /\ Results.found page = VNumber (Js.of_nat (length items))
    /\ Results.heading_count page = VNumber (Js.of_nat (length items))
    /\ get (state (location w)) "postUrl" = Normal (Results.source_url page)
    /\ (items = [] <-> Results.listing page = Results.NoEmailsFound)
    /\ (items <> [] ->
        exists rows,
          Results.listing page = Results.EmailRows rows
          /\ map snd rows = items
          /\ map fst rows = seq 0 (length items))
    /\ (get (state (location w)) "status" = Normal (VString "success") ->
        Results.badge_label page = "SUCCESS"
        /\ Results.badge_variant page = "default")
    /\ (get (state (location w)) "status" <> Normal (VString "success") ->
        Results.badge_label page = "FAILED"
        /\ Results.badge_variant page = "destructive").
Proof.
  intros Hg. pose proof (emails_array_truthy _ Hg) as Ht.
  eexists. split; [apply Results_array_page; exact Hg|]. cbn.
  split; [reflexivity|]. split; [reflexivity|].
  split; [apply get_truthy; exact Ht|].
  split; [destruct items; split; congruence|].
  split.
  - intros Hne. destruct items as [|x items]; [congruence|].
    eexists. split; [reflexivity|]. split; [apply indexed_snd | apply indexed_fst].
  - rewrite (@get_truthy _ "status" Ht).
    destruct (strict_eq_string (prop (state (location w)) "status") "success") eqn:E.
    + apply strict_eq_string_spec in E. split; [split; reflexivity|].
      intros H. rewrite E in H. congruence.
    + split; [|split; reflexivity].
      intros H. injection H as H. apply strict_eq_string_spec in H. congruence.
Qed.

Lemma Results_lists_emails_in_order_witness :
  exists page,
    Results.Results false (results_with (VObject [("emails", VArray [VString "a@x.com"])]))
    = (results_with (VObject [("emails", VArray [VString "a@x.com"])]),
       Normal (Some page))
    /\ Results.badge_label page = "FAILED"
    /\ exists rows,
         Results.listing page = Results.EmailRows rows
         /\ map snd rows = [VString "a@x.com"].
Proof.
  destruct (@Results_lists_emails_in_order false
              (results_with (VObject [("emails", VArray [VString "a@x.com"])]))
              [VString "a@x.com"] eq_refl)
    as (page & Hr & _ & _ & _ & _ & Hrows & _ & Hbad).
  exists page. split; [exact Hr|].
  split; [apply Hbad; discriminate|].
  destruct (Hrows ltac:(discriminate)) as (rows & Hl & Hs & _).
  exists rows. split; assumption.
Defined.

(** X7.  Past the guard, an [emails] that is not an array is still
    asked for its [length]: when that is zero (the empty string, an
    object with [length] 0) the "no emails" message is shown; in every
    other case the render throws at [emails.map]. *)
Theorem Results_non_array_emails (armed : bool) (w : World)
  (emails n : value) :
  Js.truthy (state (location w)) = true ->
  get (state (location w)) "emails" = Normal emails ->
  (forall items, emails <> VArray items) ->
  get emails "length" = Normal n ->
  (strict_eq_zero n = true ->
   exists page,
     Results.Results armed w = (w, Normal (Some page))
     /\ Results.listing page = Results.NoEmailsFound)
  /\ (strict_eq_zero n = false ->
      Results.Results armed w = (w, Throw (TypeError "emails.map is not a function"))).
Proof.
  intros Ht Hg Hna Hn.
  rewrite (@Results_render armed w emails n Ht Hg Hn).
  split; intros Hz; rewrite Hz.
  - eexists. split; reflexivity.
  - destruct emails; try reflexivity. exfalso. eapply Hna. reflexivity.
Qed.

Lemma Results_non_array_emails_witness :
  Results.Results false (results_with (VObject [("emails", VString "a@x.com")]))
  = (results_with (VObject [("emails", VString "a@x.com")]),
     Throw (TypeError "emails.map is not a function"))
  /\ exists page,
       Results.Results false (results_with (VObject [("emails", VObject [("length", VNumber (S754_zero false))])]))
       = (results_with (VObject [("emails", VObject [("length", VNumber (S754_zero false))])]),
          Normal (Some page))
       /\ Results.listing page = Results.NoEmailsFound.
Proof.
  split.
  - apply (proj2 (@Results_non_array_emails false
                    (results_with (VObject [("emails", VString "a@x.com")]))
                    (VString "a@x.com") _ eq_refl eq_refl
                    ltac:(discriminate) eq_refl)).
    reflexivity.
  - apply (proj1 (@Results_non_array_emails false
                    (results_with (VObject [("emails", VObject [("length", VNumber (S754_zero false))])]))
                    (VObject [("length", VNumber (S754_zero false))]) _
                    eq_refl eq_refl ltac:(discriminate) eq_refl)).
    reflexivity.
Defined.

(* ================================================================== *)
(** ** From the response to the screen *)
(* ================================================================== *)

Lemma resume_parsed_location self fd (r : Http.response value) result found w :
  Http.ok r = true -> Http.body r = Normal result ->
  get result "emails" = Normal found ->
  location (exec (Extract.handleSubmit_resume self fd (Http.Resolved r)) w)
  = {| pathname := "/results";
       state := success_state (Js.or found (VArray [])) (postUrl fd) |}
  /\ toasts (exec (Extract.handleSubmit_resume self fd (Http.Resolved r)) w) = toasts w.
Proof.
  intros Hok Hb Hg. unfold exec.
  rewrite (@resume_parsed self fd r result found w Hok Hb Hg). cbn [fst].
  destruct (after_success_spec self fd found w) as (Hl & _ & _ & _ & _ & Ht & _).
  split; assumption.
Qed.

(** X8.  When the endpoint answers 2xx with an [emails] array, the
    page Results then renders shows the SUCCESS badge, the number of
    addresses, the submitted URL as source, and the addresses one row
    each in the order the endpoint sent them (the "no emails" message
    for an empty array); no notification is shown. *)
Theorem extraction_shown_in_order (armed : bool) self fd
  (r : Http.response value) props items w :
  Http.ok r = true ->
  Http.body r = Normal (VObject props) ->
  Js.lookup "emails" props = Some (VArray items) ->
  Results.Results armed (exec (Extract.handleSubmit_resume self fd (Http.Resolved r)) w)
  = (exec (Extract.handleSubmit_resume self fd (Http.Resolved r)) w,
     Normal (Some
       {| Results.badge_variant := "default";
          Results.badge_label := "SUCCESS";
          Results.found := VNumber (Js.of_nat (length items));
          Results.source_url := VString (postUrl fd);
          Results.heading_count := VNumber (Js.of_nat (length items));
          Results.listing :=
            match items with
            | [] => Results.NoEmailsFound
            | _ :: _ => Results.EmailRows (Results.indexed 0 items)
            end |}))
  /\ toasts (exec (Extract.handleSubmit_resume self fd (Http.Resolved r)) w)
     = toasts w.
Proof.
  intros Hok Hb Hl.
  assert (Hg : get (VObject props) "emails" = Normal (VArray items))
    by (cbn; rewrite Hl; reflexivity).
  destruct (@resume_parsed_location self fd r _ _ w Hok Hb Hg) as (Hloc & Ht).
  split; [|exact Ht].
  rewrite (@Results_array_page armed _ items) by (rewrite Hloc; reflexivity).
  rewrite Hloc. reflexivity.
Qed.

Lemma extraction_shown_in_order_witness :
  exists page,
    Results.Results false extracted_two = (extracted_two, Normal (Some page))
    /\ Results.listing page
       = Results.EmailRows [(0, VString "a@x.com"); (1, VString "b@y.com")]
    /\ Results.source_url page = VString "https://example.com/post/123".
Proof.
  eexists. split.
  - exact (proj1 (@extraction_shown_in_order false 0 sample_form two_emails
                    [("emails", VArray [VString "a@x.com"; VString "b@y.com"])]
                    [VString "a@x.com"; VString "b@y.com"]
                    (with_pending [] submitted_world)
                    eq_refl eq_refl eq_refl)).
  - split; reflexivity.
Defined.

Lemma nonempty_string_length (s : string) :
  Js.truthy (VString s) = true ->
  strict_eq_zero (VNumber (Js.of_nat (String.length s))) = false.
Proof. destruct s; cbn; [discriminate | reflexivity]. Qed.

(** X9.  The endpoint's [emails] is not checked to be an array: when
    a 2xx response carries a truthy string, number or boolean there,
    [handleSubmit] still navigates to Results with it, and the render
    of Results then throws at [emails.map]. *)
Theorem extraction_with_scalar_emails_breaks_results (armed : bool) self fd
  (r : Http.response value) result found w :
  Http.ok r = true ->
  Http.body r = Normal result ->
  get result "emails" = Normal found ->
  Js.truthy found = true ->
  (exists s, found = VString s) \/ (exists n, found = VNumber n)
  \/ (exists b, found = VBool b) ->
  pathname (location (exec (Extract.handleSubmit_resume self fd (Http.Resolved r)) w))
  = "/results"
  /\ Results.Results armed (exec (Extract.handleSubmit_resume self fd (Http.Resolved r)) w)
     = (exec (Extract.handleSubmit_resume self fd (Http.Resolved r)) w,
        Throw (TypeError "emails.map is not a function")).
Proof.
  intros Hok Hb Hg Ht Hk.
  destruct (@resume_parsed_location self fd r _ _ w Hok Hb Hg) as (Hloc & _).
  unfold Js.or in Hloc. rewrite Ht in Hloc.
  split; [rewrite Hloc; reflexivity|].
  assert (Hn : exists n, get found "length" = Normal n /\ strict_eq_zero n = false).
  { destruct Hk as [(s & ->) | [(n & ->) | (b & ->)]].
    - eexists. split; [reflexivity|]. apply nonempty_string_length. exact Ht.
    - eexists. split; reflexivity.
    - eexists. split; reflexivity. }
  destruct Hn as (n & Hn & Hz).
  rewrite (@Results_render armed _ found n) by (rewrite ?Hloc; solve [reflexivity | exact Hn]).
  rewrite Hz.
  destruct Hk as [(s & ->) | [(m & ->) | (b & ->)]]; reflexivity.
Qed.

Lemma extraction_with_scalar_emails_breaks_results_witness :
  let w' := exec (Extract.handleSubmit_resume 0 sample_form
                    (Http.Resolved {| Http.status := 200;
                                      Http.body := Normal (VObject [("emails", VString "a@x.com")]) |}))
                 submitted_world in
  pathname (location w') = "/results"
  /\ Results.Results false w' = (w', Throw (TypeError "emails.map is not a function")).
Proof.
  intros w'.
  apply (@extraction_with_scalar_emails_breaks_results false 0 sample_form
           {| Http.status := 200;
              Http.body := Normal (VObject [("emails", VString "a@x.com")]) |}
           (VObject [("emails", VString "a@x.com")]) (VString "a@x.com")
           submitted_world eq_refl eq_refl eq_refl eq_refl).
  left. eexists. reflexivity.
Defined.

(* ================================================================== *)
(** ** The requests on their way *)
(* ================================================================== *)

Lemma in_flight_of_In (i : nat) fd req (l : list Pending) :
  In (PendingSubmit i fd req) l -> filter (App.submitted_by i) l <> [].
Proof.
  intros Hin H.
  assert (Hf : In (PendingSubmit i fd req) (filter (App.submitted_by i) l))
    by (apply filter_In; split; [exact Hin | cbn; apply Nat.eqb_refl]).
  rewrite H in Hf. destruct Hf.
Qed.

(** Fewer requests, and a mounted form with the same fields and
    emails, keep the requests orderly. *)
Lemma Orderly_sub (w w' : World) :
  (forall i s', extract w' = Some (i, s') ->
     exists s, extract w = Some (i, s) /\ formData s' = formData s
               /\ emails s' = emails s) ->
  (forall p, In p (pending w') -> In p (pending w)) ->
  Orderly w -> Orderly w'.
Proof.
  intros Hx Hp [O1 O2 O3 O4]. constructor.
  - intros i s' E. destruct (Hx i s' E) as (s & E' & _ & He). rewrite He. eauto.
  - intros j fd req Hin. eauto.
  - intros i s' fd req E Hin. destruct (Hx i s' E) as (s & E' & Hf & _).
    rewrite Hf. eauto.
  - intros from format req Hin. eauto.
Qed.

Lemma Orderly_enter (l : Location) (w : World) :
  Coherent w -> Orderly w -> Orderly (enter l w).
Proof.
  intros [_ _ C3 _ _] [O1 O2 O3 O4].
  destruct (unchanged_by_enter l w) as (_ & _ & Hp & _).
  pose proof (extract_enter l w) as Hx.
  constructor.
  - intros i s E. rewrite Hx in E.
    destruct (route (pathname l)) as [[]|]; try discriminate.
    destruct (extract w) as [[j t]|] eqn:E'.
    + injection E as <- <-. eauto.
    + injection E as _ <-. reflexivity.
  - intros j fd req Hin. rewrite Hp in Hin. eauto.
  - intros i s fd req E Hin. rewrite Hp in Hin. rewrite Hx in E.
    destruct (route (pathname l)) as [[]|]; try discriminate.
    destruct (extract w) as [[j t]|] eqn:E'.
    + injection E as <- <-. eauto.
    + injection E as <- _. exfalso.
      apply (in_flight_of_In _ _ _ _ Hin). apply (C3 (next_instance w)). lia.
  - intros from format req Hin. rewrite Hp in Hin. eauto.
Qed.

Lemma Orderly_goto (l : Location) (w : World) :
  Coherent w -> Orderly w -> Orderly (goto l w).
Proof.
  intros C O. pose proof (Orderly_enter l C O) as O'.
  destruct (goto_as_enter l w) as (_ & _ & Hx & _ & Hp).
  destruct (unchanged_by_enter l w) as (_ & _ & Hp' & _).
  eapply Orderly_sub; [| | exact O'].
  - intros i s' E. rewrite Hx in E. exists s'. auto.
  - intros p Hin. rewrite Hp in Hin. rewrite Hp'. exact Hin.
Qed.

Lemma Orderly_boot (path : string) (d : Document) : Orderly (App.boot path d).
Proof.
  rewrite boot_as_goto. apply Orderly_goto.
  - constructor; cbn; try discriminate; try reflexivity; auto.
  - constructor; cbn; try discriminate; intros; contradiction.
Qed.

Lemma not_loading_nothing_in_flight (w : World) (i : nat) (s : ExtractState) :
  Coherent w -> extract w = Some (i, s) -> isLoading s = false ->
  App.in_flight_of i w = [].
Proof.
  intros [_ _ _ _ C5] E Hl.
  destruct (App.in_flight_of i w) eqn:F; [reflexivity|].
  assert (isLoading s = true) by (apply (C5 i s E); rewrite F; discriminate).
  congruence.
Qed.

Lemma Orderly_step (w : World) (ev : App.Event) (w' : World) :
  Coherent w -> Orderly w -> App.step w ev = Some w' -> Orderly w'.
Proof.
  intros C O H. destruct ev; cbn [App.step] in H.
  - destruct (App.showing LandingView w); [|discriminate].
    injection H as <-. apply Orderly_goto; assumption.
  - destruct (extract w); [|discriminate].
    injection H as <-. apply Orderly_goto; assumption.
  - destruct (extract w) as [[i s]|] eqn:E; [|discriminate].
    destruct (Extract.inputs_disabled s) eqn:D; [discriminate|].
    injection H as <-.
    pose proof (not_loading_nothing_in_flight C E D) as H0.
    destruct O as [O1 O2 O3 O4].
    unfold exec, Extract.handleInputChange, setFormData, set_state.
    rewrite E, Nat.eqb_refl. cbn.
    constructor; cbn.
    + intros j t H. injection H as <- <-. cbn. eauto.
    + exact O2.
    + intros j t fd req H Hin. injection H as <- <-. exfalso.
      apply (in_flight_of_In _ _ _ _ Hin). exact H0.
    + exact O4.
  - destruct (extract w) as [[i s]|] eqn:E; [|discriminate].
    destruct (Extract.submit_disabled s) eqn:D; [discriminate|].
    injection H as <-.
    assert (Hl : isLoading s = false).
    { unfold Extract.submit_disabled in D. apply orb_false_iff in D. tauto. }
    assert (Hv : Js.truthy (Extract.isFormValid (formData s)) = true).
    { unfold Extract.submit_disabled, Js.not in D. apply orb_false_iff in D.
      destruct D as (D & _). apply negb_false_iff in D. exact D. }
    apply isFormValid_truthy in Hv.
    pose proof (not_loading_nothing_in_flight C E Hl) as H0.
    destruct O as [O1 O2 O3 O4].
    unfold exec, Extract.handleSubmit_start, preventDefault, bind, ret,
      setIsLoading, set_state, fetch.
    rewrite E, Nat.eqb_refl. cbn.
    constructor; cbn.
    + intros j t H. injection H as <- <-. cbn. eauto.
    + intros j fd req Hin. apply in_app_or in Hin.
      destruct Hin as [Hin | [Hin | []]]; [eauto|].
      inversion Hin; subst. split; [reflexivity | exact Hv].
    + intros j t fd req H Hin. injection H as <- <-. cbn.
      apply in_app_or in Hin. destruct Hin as [Hin | [Hin | []]].
      * exfalso. apply (in_flight_of_In _ _ _ _ Hin). exact H0.
      * inversion Hin; subst. reflexivity.
    + intros from format req Hin. apply in_app_or in Hin.
      destruct Hin as [Hin | [Hin | []]]; [eauto | discriminate].
  - destruct (extract w) as [[i s]|] eqn:E; [|discriminate].
    destruct (Extract.download_offered s) eqn:D; [|discriminate].
    exfalso. unfold Extract.download_offered in D.
    rewrite (ord_emails O E) in D. discriminate.
  - destruct (App.showing ResultsView w); [|discriminate].
    injection H as <-.
    destruct (exec_Results armed w) as [-> | ->]; [exact O | apply Orderly_goto; assumption].
  - destruct (App.results_on_screen w); [|discriminate].
    injection H as <-. apply Orderly_goto; assumption.
  - destruct (App.results_on_screen w); [|discriminate].
    injection H as <-. apply Orderly_goto; assumption.
  - destruct (App.results_on_screen w); [|discriminate].
    injection H as <-. apply Orderly_goto; assumption.
  - destruct (App.showing StatusView w); [|discriminate].
    injection H as <-. apply Orderly_goto; assumption.
  - destruct (App.showing StatusView w); [|discriminate].
    injection H as <-. apply Orderly_goto; assumption.
  - destruct (App.showing StatusView w); [|discriminate].
    injection H as <-. destruct O as [O1 O2 O3 O4].
    constructor; cbn.
    + exact O1.
    + intros j fd req Hin. apply in_app_or in Hin.
      destruct Hin as [Hin | [Hin | []]]; [eauto | discriminate].
    + intros j t fd req E Hin. apply in_app_or in Hin.
      destruct Hin as [Hin | [Hin | []]]; [eauto | discriminate].
    + intros from fmt req Hin. apply in_app_or in Hin.
      destruct Hin as [Hin | [Hin | []]]; [eauto|].
      inversion Hin; subst. split; reflexivity.
  - destruct (App.take k (pending w)) as [[p rest]|] eqn:T; [|discriminate].
    destruct p as [self fd req | ]; [|discriminate].
    injection H as <-.
    destruct (take_split _ _ T) as (l1 & l2 & Hp & ->).
    assert (Hsub : forall p, In p (l1 ++ l2) -> In p (pending w)).
    { intros p Hin. rewrite Hp. apply in_app_or in Hin. apply in_or_app.
      destruct Hin; [left | right; right]; assumption. }
    unfold exec.
    destruct (resume_cases self fd o (with_pending (l1 ++ l2) w))
      as [(e & ->) | (found & ->)]; cbn [fst].
    + destruct (after_failure_spec self e (with_pending (l1 ++ l2) w))
        as (_ & _ & Hq & _ & _ & _ & _ & Hx).
      eapply Orderly_sub; [| | exact O].
      * intros i s' E. rewrite Hx in E. cbn in E. unfold stop_loading in E.
        destruct (extract w) as [[j t]|]; [|discriminate].
        destruct (Nat.eqb j self); injection E as <- <-;
          eexists; repeat split; reflexivity.
      * intros p Hin. rewrite Hq in Hin. apply Hsub. exact Hin.
    + destruct (after_success_spec self fd found (with_pending (l1 ++ l2) w))
        as (_ & _ & Hq & _ & _ & _ & _ & Hx).
      eapply Orderly_sub; [| | exact O].
      * intros i s' E. rewrite Hx in E. discriminate.
      * intros p Hin. rewrite Hq in Hin. apply Hsub. exact Hin.
  - destruct (App.take k (pending w)) as [[p rest]|] eqn:T; [|discriminate].
    destruct p as [ | from format req]; [discriminate|].
    destruct (take_split _ _ T) as (l1 & l2 & Hp & ->).
    assert (w' = exec (Status.handleDownload_resume format o)
                   (with_pending (l1 ++ l2) w))
      by (destruct from; injection H as <-; reflexivity).
    subst w'.
    destruct (handleDownload_frame format o (with_pending (l1 ++ l2) w))
      as (_ & _ & Hx & _ & Hq).
    eapply Orderly_sub; [| | exact O].
    + intros i s' E. rewrite Hx in E. exists s'. auto.
    + intros p Hin. rewrite Hq in Hin. cbn in Hin. rewrite Hp.
      apply in_app_or in Hin. apply in_or_app.
      destruct Hin; [left | right; right]; assumption.
  - destruct (nth_error (history w) k); [|discriminate].
    injection H as <-. apply Orderly_enter; assumption.
Qed.

Lemma reachable_Orderly (w : World) : App.reachable w -> Orderly w.
Proof.
  induction 1 as [path d | w ev w' R IH Hs].
  - apply Orderly_boot.
  - eapply Orderly_step; [apply reachable_Coherent; exact R | exact IH | exact Hs].
Qed.

(** X10.  In every world the application can reach, the mounted
    Extract form holds no emails: [setEmails] is only ever followed by
    the navigation that unmounts the form, and a form mounted anew
    starts from the empty array.  So the download buttons of the Extract
    page are never on offer, and every download on its way was started
    from the Status page. *)
Theorem extract_download_never_offered (w : World) :
  App.reachable w ->
  (forall i s, extract w = Some (i, s) ->
     emails s = VArray [] /\ Extract.download_offered s = false)
  /\ (forall format, App.step w (App.ExtractDownload format) = None)
  /\ (forall from format req,
        In (PendingDownload from format req) (pending w) ->
        from = StatusView /\ req = download_request format).
Proof.
  intros R. destruct (reachable_Orderly R) as [O1 _ _ O4].
  assert (H1 : forall i s, extract w = Some (i, s) ->
                 emails s = VArray [] /\ Extract.download_offered s = false).
  { intros i s E. pose proof (O1 i s E) as He. split; [exact He|].
    unfold Extract.download_offered. rewrite He. reflexivity. }
  split; [exact H1|]. split; [|exact O4].
  intros format. cbn [App.step].
  destruct (extract w) as [[i s]|] eqn:E; [|reflexivity].
  destruct (H1 i s eq_refl) as (_ & ->). reflexivity.
Qed.

Lemma extract_download_never_offered_witness :
  App.step (after_events (App.boot "/extract" empty_document)
              (fill_and_submit
               ++ [App.ExtractionSettles 0
                     (Http.Resolved {| Http.status := 500; Http.body := Normal VNull |})]))
    (App.ExtractDownload csv) = None.
Proof.
  assert (R : App.reachable
                (after_events (App.boot "/extract" empty_document)
                   (fill_and_submit
                    ++ [App.ExtractionSettles 0
                          (Http.Resolved {| Http.status := 500;
                                            Http.body := Normal VNull |})])))
    by (apply reachable_after_events; vm_compute; discriminate).
  destruct (extract_download_never_offered R) as (_ & H & _).
  apply H.
Defined.

(** X11.  Every extraction request on its way was built from a form
    with all three fields filled in, and as long as the form that sent
    it is mounted, that form still shows exactly what was sent: it is
    loading and cannot be typed into. *)
Theorem requests_carry_the_filled_form (w : World) :
  App.reachable w ->
  (forall j fd req,
     In (PendingSubmit j fd req) (pending w) ->
     req = Extract.extract_request fd
     /\ email fd <> EmptyString /\ password fd <> EmptyString
     /\ postUrl fd <> EmptyString)
  /\ (forall i s fd req,
        extract w = Some (i, s) ->
        In (PendingSubmit i fd req) (pending w) ->
        fd = formData s
        /\ isLoading s = true
        /\ forall field val, App.step w (App.InputChange field val) = None).
Proof.
  intros R. destruct (reachable_Orderly R) as [_ O2 O3 _].
  destruct (reachable_Coherent R) as [_ _ _ _ C5].
  split; [exact O2|].
  intros i s fd req E Hin.
  split; [eapply O3; eassumption|].
  assert (Hl : isLoading s = true).
  { apply (C5 i s E). eapply in_flight_of_In. exact Hin. }
  split; [exact Hl|].
  intros field val. cbn [App.step]. rewrite E.
  unfold Extract.inputs_disabled. rewrite Hl. reflexivity.
Qed.

Lemma requests_carry_the_filled_form_witness :
  email sample_form <> EmptyString
  /\ forall field val,
       App.step (after_events (App.boot "/extract" empty_document) fill_and_submit)
         (App.InputChange field val) = None.
Proof.
  assert (R : App.reachable (after_events (App.boot "/extract" empty_document)
                               fill_and_submit))
    by (apply reachable_after_events; vm_compute; discriminate).
  destruct (requests_carry_the_filled_form R) as (H1 & H2).
  split.
  - destruct (H1 0 sample_form (Extract.extract_request sample_form)
                (or_introl eq_refl)) as (_ & He & _).
    exact He.
  - destruct (H2 0 {| formData := sample_form; isLoading := true; emails := VArray [] |}
                sample_form (Extract.extract_request sample_form)
                eq_refl (or_introl eq_refl)) as (_ & _ & H).
    exact H.
Defined.

Lemma shown_elsewhere_not_mounted (w : World) (v : View) :
  Coherent w -> App.showing v w = true -> v <> ExtractView -> extract w = None.
Proof.
  intros [C1 _ _ _ _] Hs Hv. unfold App.showing in Hs.
  destruct (extract w); [|reflexivity].
  rewrite C1 in Hs. destruct v; cbn in Hs; congruence.
Qed.

Lemma fresh_form (w : World) :
  extract w = None ->
  location (goto {| pathname := "/extract"; state := VNull |} w)
  = {| pathname := "/extract"; state := VNull |}
  /\ extract (goto {| pathname := "/extract"; state := VNull |} w)
     = Some (next_instance w, initial_extract)
  /\ pending (goto {| pathname := "/extract"; state := VNull |} w) = pending w.
Proof.
  intros E.
  destruct (goto_as_enter {| pathname := "/extract"; state := VNull |} w)
    as (Hl & _ & Hx & _ & Hp).
  rewrite Hl, Hx, Hp, extract_enter, E. repeat split; reflexivity.
Qed.

(** X12.  "Get Started", "Back to Extract", "Try Again" and "Start
    New Extraction" all land on a form mounted anew: the three fields
    are empty whatever was entered before, the inputs are enabled, the
    submit control is disabled, no router state is carried, and the
    requests on their way are not touched. *)
Theorem entering_extract_gives_empty_form (w : World) (ev : App.Event)
  (w' : World) :
  App.reachable w ->
  In ev [App.GetStarted; App.BackToExtract; App.TryAgain; App.StartNewExtraction] ->
  App.step w ev = Some w' ->
  location w' = {| pathname := "/extract"; state := VNull |}
  /\ (exists i s,
        extract w' = Some (i, s)
        /\ email (formData s) = EmptyString
        /\ password (formData s) = EmptyString
        /\ postUrl (formData s) = EmptyString
        /\ Extract.inputs_disabled s = false
        /\ Extract.submit_disabled s = true
        /\ App.in_flight_of i w' = [])
  /\ pending w' = pending w.
Proof.
  intros R Hev H. pose proof (reachable_Coherent R) as C.
  assert (Hgo : extract w = None
                /\ w' = goto {| pathname := "/extract"; state := VNull |} w).
  { cbn in Hev. destruct Hev as [<- | [<- | [<- | [<- | []]]]]; cbn [App.step] in H.
    - destruct (App.showing LandingView w) eqn:S; [|discriminate].
      injection H as <-. split; [|reflexivity].
      eapply shown_elsewhere_not_mounted; [exact C | exact S | discriminate].
    - unfold App.results_on_screen in H.
      destruct (App.showing ResultsView w) eqn:S; [|discriminate].
      destruct (Results.Results false w) as [? [[?|]|]]; try discriminate.
      injection H as <-. split; [|reflexivity].
      eapply shown_elsewhere_not_mounted; [exact C | exact S | discriminate].
    - unfold App.results_on_screen in H.
      destruct (App.showing ResultsView w) eqn:S; [|discriminate].
      destruct (Results.Results false w) as [? [[?|]|]]; try discriminate.
      injection H as <-. split; [|reflexivity].
      eapply shown_elsewhere_not_mounted; [exact C | exact S | discriminate].
    - destruct (App.showing StatusView w) eqn:S; [|discriminate].
      injection H as <-. split; [|reflexivity].
      eapply shown_elsewhere_not_mounted; [exact C | exact S | discriminate]. }
  destruct Hgo as (E & ->).
  destruct (fresh_form w E) as (Hl & Hx & Hp).
  split; [exact Hl|]. split; [|exact Hp].
  exists (next_instance w), initial_extract.
  split; [exact Hx|]. repeat split.
  unfold App.in_flight_of. rewrite Hp.
  destruct C as [_ _ C3 _ _]. apply C3. lia.
Qed.

Lemma entering_extract_gives_empty_form_witness :
  exists w',
    App.step extracted_two App.TryAgain = Some w'
    /\ exists i s, extract w' = Some (i, s) /\ postUrl (formData s) = EmptyString.
Proof.
  assert (R : App.reachable extracted_two)
    by (apply reachable_after_events; vm_compute; discriminate).
  eexists. split; [reflexivity|].
  destruct (@entering_extract_gives_empty_form extracted_two App.TryAgain _ R
              ltac:(cbn; tauto) eq_refl)
    as (_ & (i & s & Hx & _ & _ & Hu & _) & _).
  exists i, s. split; assumption.
Defined.
